(** * Black-Scholes pricing of European vanilla options

  A shallow embedding of [models/models.py]: the [VanillaOption] contract
  with its two derived quantities, and the two pricing variants
  [SpotPrice] and [ForwardPrice] of the abstract class [BlackScholes].

  Numbers are modelled over exact real arithmetic ([R]).  The exceptions
  Python really raises on these code paths are modelled by the [result]
  type: a [ValueError] when a date string does not match the format, and
  a [ZeroDivisionError] when two plain Python numbers are divided by zero.
  numpy operations never raise: outside the domain of a formula they
  produce [nan] or [inf], which [R] has no counterpart of.  There the
  model takes the value of the total functions of the Standard Library;
  the statements below are read where the formulas are defined.

  What depends on rounding is stated on a second embedding, [Doubles], of
  the forward variant over binary64 numbers. *)

From Stdlib Require Import Floats.
From Stdlib Require Import Reals Lra Lia ZArith List String Ascii Bool.
From Stdlib Require Import Classical_Prop.
Import ListNotations.

Local Open Scope R_scope.

(** ** Exceptions *)

Inductive exn : Set :=
| ValueError
| ZeroDivisionError.

Inductive result (A : Type) : Type :=
| Ok (a : A)
| Raise (e : exn).

Arguments Ok {A} a.
Arguments Raise {A} e.

Definition bind {A B : Type} (m : result A) (k : A -> result B) : result B :=
  match m with
  | Ok a => k a
  | Raise e => Raise e
  end.

Notation "x <- m ;; k" := (bind m (fun x => k))
  (at level 61, m at next level, right associativity).

(** [x / y] on plain Python numbers. *)
Definition truediv (x y : R) : result R :=
  if Req_dec_T y 0 then Raise ZeroDivisionError else Ok (x / y).

(** ** External collaborators

  [to_datetime s] is [pd.to_datetime(s, format="%d.%m.%Y")]: the day
  number of the calendar date written in [s], or a [ValueError].  The
  format has no time of day, so the [.days] of a difference of two such
  timestamps is the difference of the day numbers.
  [cdf] is [NormalDist().cdf]. *)

Class Library : Type := {
  to_datetime : string -> result Z;
  cdf : R -> R
}.

(** ** The contract *)

Record VanillaOption : Type := mkVanillaOption {
  trade_date : string;
  expiry_date : string;
  spot_price : R;
  strike_price : R;
  risk_free_int : R;
  dividends : R;
  volatility : R
}.

Section Contract.
Context {L : Library}.

Definition time_to_expiry (o : VanillaOption) : result R :=
  expiry <- to_datetime (expiry_date o) ;;
  trade <- to_datetime (trade_date o) ;;
  let delta_days := (expiry - trade)%Z in
  Ok (IZR delta_days / 365).

Definition risk_free_cont (o : VanillaOption) : R :=
  ln (1 + risk_free_int o).
End Contract.

(** ** The abstract class

  [put] and [put_from_parity] are annotated [float] in the abstract class
  and [None] in [SpotPrice]: their result is an optional number. *)

Record BlackScholes : Type := mkBlackScholes {
  bs_price : VanillaOption -> result R;
  bs_d1 : VanillaOption -> result R;
  bs_d2 : VanillaOption -> result R;
  bs_call : VanillaOption -> result R;
  bs_put : VanillaOption -> result (option R);
  bs_put_from_parity : VanillaOption -> result (option R)
}.

Module SpotPrice.
Section Model.
Context {L : Library}.

Definition price (o : VanillaOption) : result R :=
  Ok (spot_price o).

Definition d1 (o : VanillaOption) : result R :=
  p <- price o ;;
  q <- truediv p (strike_price o) ;;
  t <- time_to_expiry o ;;
  t' <- time_to_expiry o ;;
  Ok ((ln q + t * (risk_free_cont o + volatility o ^ 2 / 2))
      / (volatility o * sqrt t')).

Definition d2 (o : VanillaOption) : result R :=
  d <- d1 o ;;
  t <- time_to_expiry o ;;
  Ok (d - volatility o * sqrt t).

Definition call (o : VanillaOption) : result R :=
  a <- d1 o ;;
  p <- price o ;;
  b <- d2 o ;;
  t <- time_to_expiry o ;;
  Ok (cdf a * p - cdf b * strike_price o * exp (- risk_free_cont o * t)).

Definition put (o : VanillaOption) : result (option R) :=
  Ok None.

Definition put_from_parity (o : VanillaOption) : result (option R) :=
  Ok None.

Definition model : BlackScholes :=
  mkBlackScholes price d1 d2 call put put_from_parity.
End Model.
End SpotPrice.

Module ForwardPrice.
Section Model.
Context {L : Library}.

Definition price (o : VanillaOption) : result R :=
  t <- time_to_expiry o ;;
  let forward_price := spot_price o * exp (risk_free_cont o * t) in
  Ok forward_price.

Definition d1 (o : VanillaOption) : result R :=
  p <- price o ;;
  t <- time_to_expiry o ;;
  t' <- time_to_expiry o ;;
  Ok ((ln (p / strike_price o) + t * volatility o ^ 2 / 2)
      / (volatility o * sqrt t')).

Definition d2 (o : VanillaOption) : result R :=
  d <- d1 o ;;
  t <- time_to_expiry o ;;
  Ok (d - volatility o * sqrt t).

Definition call (o : VanillaOption) : result R :=
  a <- d1 o ;;
  p <- price o ;;
  b <- d2 o ;;
  t <- time_to_expiry o ;;
  Ok ((cdf a * p - cdf b * strike_price o)
      * exp (- risk_free_cont o * t)).

Definition put (o : VanillaOption) : result (option R) :=
  b <- d2 o ;;
  a <- d1 o ;;
  p <- price o ;;
  t <- time_to_expiry o ;;
  Ok (Some ((cdf (- b) * strike_price o - cdf (- a) * p)
            * exp (- risk_free_cont o * t))).

Definition put_from_parity (o : VanillaOption) : result (option R) :=
  c <- call o ;;
  t <- time_to_expiry o ;;
  Ok (Some (c - spot_price o
            + strike_price o * exp (- risk_free_cont o * t))).

Definition model : BlackScholes :=
  mkBlackScholes price d1 d2 call put put_from_parity.
End Model.
End ForwardPrice.

(** ** A reference date parser

  An executable instance of [to_datetime] for the format [%d.%m.%Y]:
  day and month of one or two digits, a year of four digits, separated by
  dots, checked against the proleptic Gregorian calendar.  The day number
  is the ordinal of the date (1 for 01.01.0001). *)

Module Calendar.

Definition is_digit (c : ascii) : bool :=
  let n := nat_of_ascii c in (48 <=? n)%nat && (n <=? 57)%nat.

Fixpoint digits (s : string) (acc : Z) : option Z :=
  match s with
  | EmptyString => Some acc
  | String c r =>
    if is_digit c
    then digits r (10 * acc + Z.of_nat (nat_of_ascii c - 48))%Z
    else None
  end.

Definition number (lo hi : nat) (s : string) : option Z :=
  if ((lo <=? String.length s) && (String.length s <=? hi))%nat
  then digits s 0%Z else None.

Fixpoint fields (s : string) : list string :=
  match s with
  | EmptyString => [EmptyString]
  | String c r =>
    if Ascii.eqb c "."%char then EmptyString :: fields r
    else match fields r with
         | [] => [String c EmptyString]
         | f :: fs => String c f :: fs
         end
  end.

Definition is_leap (y : Z) : bool :=
  ((y mod 4 =? 0) && (negb (y mod 100 =? 0) || (y mod 400 =? 0)))%Z.

Definition days_in_month (y m : Z) : Z :=
  (if (m =? 2) then (if is_leap y then 29 else 28)
   else if (m =? 4) || (m =? 6) || (m =? 9) || (m =? 11) then 30
   else 31)%Z.

Definition days_before_year (y : Z) : Z :=
  (let p := y - 1 in p * 365 + p / 4 - p / 100 + p / 400)%Z.

Definition days_before_month (y m : Z) : Z :=
  fold_right Z.add 0%Z
  (map (fun k => days_in_month y (Z.of_nat k)) (seq 1 (Z.to_nat m - 1))).

Definition ymd2ord (y m d : Z) : Z :=
  (days_before_year y + days_before_month y m + d)%Z.

Definition strptime (s : string) : result Z :=
  match fields s with
  | [dd; mm; yyyy] =>
    match number 1 2 dd, number 1 2 mm, number 4 4 yyyy with
    | Some d, Some m, Some y =>
        if ((1 <=? y) && (1 <=? m) && (m <=? 12)
            && (1 <=? d) && (d <=? days_in_month y m))%Z
        then Ok (ymd2ord y m d)
        else Raise ValueError
    | _, _, _ => Raise ValueError
    end
  | _ => Raise ValueError
  end.

End Calendar.


(** ** The closed-form expressions of the specification

  Written from the specification's words, over the numbers of a contract:
  spot [S], strike [K], continuous rate [r], volatility [v], time to
  expiry [t], and the model's price [p]. *)

Module Formula.

Definition forward_price (S r t : R) : R := S * exp (r * t).

Definition spot_d1 (p K r v t : R) : R :=
  (ln (p / K) + t * (r + v ^ 2 / 2)) / (v * sqrt t).

Definition forward_d1 (p K v t : R) : R :=
  (ln (p / K) + t * v ^ 2 / 2) / (v * sqrt t).

Definition d2 (d1 v t : R) : R := d1 - v * sqrt t.

Definition discount (r t : R) : R := exp (- (r * t)).

Definition spot_call (Phi : R -> R) (d1 d2 p K r t : R) : R :=
  Phi d1 * p - Phi d2 * K * discount r t.

Definition forward_call (Phi : R -> R) (d1 d2 p K r t : R) : R :=
  (Phi d1 * p - Phi d2 * K) * discount r t.

Definition forward_put (Phi : R -> R) (d1 d2 p K r t : R) : R :=
  (Phi (- d2) * K - Phi (- d1) * p) * discount r t.

Definition parity_put (c S K r t : R) : R := c - S + K * discount r t.

Definition parity_rhs (S K r t : R) : R := S - K * discount r t.

End Formula.

(** The tolerance of the tests, [atol=1e-4]. *)
Definition atol : R := 1 / 10000.

(** The test scenarios of [models/test.py]. *)
Definition scenario (spot strike : R) : VanillaOption :=
  mkVanillaOption "23.11.2022" "10.05.2023" spot strike (5 / 1000) 0 (3 / 10).

Definition itm : VanillaOption := scenario 110 100.
Definition atm : VanillaOption := scenario 100 100.
Definition otm : VanillaOption := scenario 100 110.

(** ** Contracts that differ in their dividends only *)

Definition differ_only_in_dividends (o1 o2 : VanillaOption) : Prop :=
  trade_date o1 = trade_date o2
  /\ expiry_date o1 = expiry_date o2
  /\ spot_price o1 = spot_price o2
  /\ strike_price o1 = strike_price o2
  /\ risk_free_int o1 = risk_free_int o2
  /\ volatility o1 = volatility o2.

Definition same_outputs (m : BlackScholes) (o1 o2 : VanillaOption) : Prop :=
  bs_price m o1 = bs_price m o2
  /\ bs_d1 m o1 = bs_d1 m o2
  /\ bs_d2 m o1 = bs_d2 m o2
  /\ bs_call m o1 = bs_call m o2
  /\ bs_put m o1 = bs_put m o2
  /\ bs_put_from_parity m o1 = bs_put_from_parity m o2.

Definition with_dividends (o : VanillaOption) (x : R) : VanillaOption :=
  mkVanillaOption (trade_date o) (expiry_date o) (spot_price o)
    (strike_price o) (risk_free_int o) x (volatility o).

(** The conditions under which the pricing formulas are stated: positive
  spot, strike, volatility and time to expiry. *)
Definition valid_contract (L : Library) (o : VanillaOption) (t : R) : Prop :=
  0 < spot_price o /\ 0 < strike_price o /\ 0 < volatility o
  /\ time_to_expiry o = Ok t /\ 0 < t.

(** A spot just below the strike, and a spot just above it at a negative
  rate, on the dates of the scenarios. *)
Definition near_otm : VanillaOption := scenario 100 (1001 / 10).

Definition near_itm_negative_rate : VanillaOption :=
  mkVanillaOption "23.11.2022" "10.05.2023"
    (1001 / 10) 100 (- 5 / 1000) 0 (3 / 10).

(** ** Contracts derived from a contract *)

(** The same contract with spot and strike in another unit. *)
Definition scale_prices (k : R) (o : VanillaOption) : VanillaOption :=
  mkVanillaOption (trade_date o) (expiry_date o) (k * spot_price o)
    (k * strike_price o) (risk_free_int o) (dividends o) (volatility o).

(** A contract with a strike of zero and dates that do not parse. *)
Definition zero_strike_unparsed : VanillaOption :=
  mkVanillaOption "tomorrow" "never" 110 0 (5 / 1000) 0 (3 / 10).

(** ** The tests of [models/test.py]

  Each test picks one scenario, builds its [ForwardPrice] model and
  asserts.  The body of a test is modelled as a function of the contract:
  it raises what the properties raise, and returns the conjunction of the
  asserted conditions otherwise.  [np.isclose(a, b, atol=atol)] compares
  with the default relative tolerance of numpy. *)

Module Tests.

Definition rtol : R := 1 / 100000.

Definition isclose (a b atol : R) : Prop :=
  Rabs (a - b) <= atol + rtol * Rabs b.

(** A test passes when its body raises nothing and its assertions hold. *)
Definition passes (m : result Prop) : Prop :=
  match m with
  | Ok P => P
  | Raise _ => False
  end.

Section Bodies.
Context {L : Library}.

Definition right_part_parity (o : VanillaOption) : result R :=
  t <- time_to_expiry o ;;
  let parity :=
    spot_price o - strike_price o * exp (- risk_free_cont o * t) in
  Ok parity.

Definition call_in_the_money (o : VanillaOption) : result Prop :=
  call <- ForwardPrice.call o ;;
  put <- ForwardPrice.put o ;;
  right_part <- right_part_parity o ;;
  d1 <- ForwardPrice.d1 o ;;
  d2 <- ForwardPrice.d2 o ;;
  Ok (match put with
      | Some put =>
          let left_part := call - put in
          call > 0 /\ put > 0 /\ d1 > 0 /\ d2 > 0 /\ call > put
          /\ isclose left_part right_part atol
      | None => False
      end).

Definition at_the_money (o : VanillaOption) : result Prop :=
  call <- ForwardPrice.call o ;;
  put <- ForwardPrice.put o ;;
  right_part <- right_part_parity o ;;
  Ok (match put with
      | Some put =>
          let left_part := call - put in
          call > 0 /\ put > 0 /\ isclose left_part right_part atol
      | None => False
      end).

Definition call_out_of_the_money (o : VanillaOption) : result Prop :=
  call <- ForwardPrice.call o ;;
  put <- ForwardPrice.put o ;;
  right_part <- right_part_parity o ;;
  Ok (match put with
      | Some put =>
          let left_part := call - put in
          call > 0 /\ put > 0 /\ put > call
          /\ isclose left_part right_part atol
      | None => False
      end).

(** One turn of the loop of [test_end_to_end]. *)
Definition end_to_end_step (o : VanillaOption) : result Prop :=
  call_price <- ForwardPrice.call o ;;
  put_price <- ForwardPrice.put o ;;
  match put_price with
  | Some put_price =>
      if Req_dec_T (spot_price o) (strike_price o) then
        right_part <- right_part_parity o ;;
        Ok (call_price > 0 /\ put_price > 0
            /\ isclose (call_price - put_price) right_part atol)
      else if Rlt_dec (strike_price o) (spot_price o) then
        Ok (call_price > 0 /\ put_price > 0 /\ call_price > put_price)
      else if Rlt_dec (spot_price o) (strike_price o) then
        Ok (call_price > 0 /\ put_price > 0 /\ call_price < put_price)
      else Ok (call_price > 0 /\ put_price > 0)
  | None => Ok False
  end.

Fixpoint end_to_end (options : list VanillaOption) : result Prop :=
  match options with
  | [] => Ok True
  | o :: rest =>
      P <- end_to_end_step o ;;
      Q <- end_to_end rest ;;
      Ok (P /\ Q)
  end.

End Bodies.

(** The values of the fixture [scenarios], in the order of the dict. *)
Definition scenarios : list VanillaOption := [itm; atm; otm].

End Tests.

(** ** The forward variant in double precision

  The same code over binary64 numbers, for what depends on rounding.
  Arithmetic and [np.sqrt] are the IEEE 754 operations.  [np.exp],
  [np.log], [NormalDist().cdf] and Python's [**] on floats are external:
  they are taken through the values the C standard and CPython fix for
  them at zero, one and the infinities.  [**] raises [OverflowError] when
  its result is out of range. *)

Module Doubles.

Local Open Scope float_scope.
#[local] Set Warnings "-inexact-float".

Inductive exn : Set :=
| ValueError
| OverflowError.

Inductive result (A : Type) : Type :=
| Ok (a : A)
| Raise (e : exn).

Arguments Ok {A} a.
Arguments Raise {A} e.

Definition bind {A B : Type} (m : result A) (k : A -> result B) : result B :=
  match m with
  | Ok a => k a
  | Raise e => Raise e
  end.

Declare Scope doubles_scope.
Notation "x <- m ;; k" := (bind m (fun x => k))
  (at level 61, m at next level, right associativity) : doubles_scope.
Local Open Scope doubles_scope.

Class Library : Type := {
  to_datetime : string -> result Z;
  np_exp : float -> float;
  np_log : float -> float;
  cdf : float -> float;
  float_pow : float -> float -> result float
}.

Record VanillaOption : Type := mkVanillaOption {
  trade_date : string;
  expiry_date : string;
  spot_price : float;
  strike_price : float;
  risk_free_int : float;
  dividends : float;
  volatility : float
}.

(** A number of days as a float; exact below [2^53]. *)
Definition float_of_Z (z : Z) : float :=
  match z with
  | Z0 => 0
  | Zpos _ => PrimFloat.of_uint63 (Uint63.of_Z z)
  | Zneg p => - PrimFloat.of_uint63 (Uint63.of_Z (Zpos p))
  end.

Section Contract.
Context {L : Library}.

Definition time_to_expiry (o : VanillaOption) : result float :=
  expiry <- to_datetime (expiry_date o) ;;
  trade <- to_datetime (trade_date o) ;;
  let delta_days := (expiry - trade)%Z in
  Ok (float_of_Z delta_days / 365).

Definition risk_free_cont (o : VanillaOption) : float :=
  np_log (1 + risk_free_int o).
End Contract.

Module ForwardPrice.
Section Model.
Context {L : Library}.

Definition price (o : VanillaOption) : result float :=
  t <- time_to_expiry o ;;
  let forward_price := spot_price o * np_exp (risk_free_cont o * t) in
  Ok forward_price.

Definition d1 (o : VanillaOption) : result float :=
  p <- price o ;;
  t <- time_to_expiry o ;;
  v2 <- float_pow (volatility o) 2 ;;
  t' <- time_to_expiry o ;;
  Ok ((np_log (p / strike_price o) + t * v2 / 2)
      / (volatility o * PrimFloat.sqrt t')).

Definition d2 (o : VanillaOption) : result float :=
  d <- d1 o ;;
  t <- time_to_expiry o ;;
  Ok (d - volatility o * PrimFloat.sqrt t).

Definition call (o : VanillaOption) : result float :=
  a <- d1 o ;;
  p <- price o ;;
  b <- d2 o ;;
  t <- time_to_expiry o ;;
  Ok ((cdf a * p - cdf b * strike_price o)
      * np_exp (- risk_free_cont o * t)).

Definition put (o : VanillaOption) : result float :=
  b <- d2 o ;;
  a <- d1 o ;;
  p <- price o ;;
  t <- time_to_expiry o ;;
  Ok ((cdf (- b) * strike_price o - cdf (- a) * p)
      * np_exp (- risk_free_cont o * t)).

End Model.
End ForwardPrice.

(** The values every implementation gives: [exp (+-0) = 1], [log 1 = +0],
  [log (+0) = -inf], [log (+inf) = +inf] (C standard, annex F);
  [cdf (-inf) = 0] and [cdf (+inf) = 1], from [erf (+-inf) = +-1] and
  [erfc (+inf) = 0], [erfc (-inf) = 2]; [1.0 ** 2 = 1.0] (CPython). *)
Record conforming (L : Library) : Prop := {
  exp_zero : np_exp 0 = 1;
  exp_neg_zero : np_exp (- 0) = 1;
  log_one : np_log 1 = 0;
  log_zero : np_log 0 = neg_infinity;
  log_infinity : np_log infinity = infinity;
  cdf_neg_infinity : cdf neg_infinity = 0;
  cdf_infinity : cdf infinity = 1;
  pow_one : float_pow 1 2 = Ok 1
}.

(** The dates of the test scenarios are 168 days apart. *)
Definition scenario_dates (L : Library) : Prop :=
  exists trade : Z,
    to_datetime "23.11.2022" = Ok trade
    /\ to_datetime "10.05.2023" = Ok (trade + 168)%Z.

(** [x > y] on floats. *)
Definition gt (x y : float) : Prop := PrimFloat.ltb y x = true.

Definition valid_contract (L : Library) (o : VanillaOption) (t : float)
  : Prop :=
  gt (spot_price o) 0 /\ gt (strike_price o) 0 /\ gt (volatility o) 0
  /\ time_to_expiry o = Ok t /\ gt t 0.

(** The sign invariants as a statement on the numbers of the code. *)
Definition signs_hold (L : Library) : Prop :=
  forall o t, valid_contract L o t ->
    exists c p,
      ForwardPrice.call o = Ok c /\ ForwardPrice.put o = Ok p
      /\ gt c 0 /\ gt p 0.

Definition tiny : float := 1e-200.
Definition huge : float := 1e200.

(** A spot so far below the strike that their quotient underflows, and the
  mirror contract, at a rate of zero and a volatility of one. *)
Definition deep_otm : VanillaOption :=
  mkVanillaOption "23.11.2022" "10.05.2023" tiny huge 0 0 1.

Definition deep_itm : VanillaOption :=
  mkVanillaOption "23.11.2022" "10.05.2023" huge tiny 0 0 1.

End Doubles.

(** The conditions on a numeric library are consistent: the reference date
  parser with functions that know the standard values only, and return
  [nan] elsewhere. *)
Definition doubles_to_datetime (s : string) : Doubles.result Z :=
  match Calendar.strptime s with
  | Ok z => Doubles.Ok z
  | Raise _ => Doubles.Raise Doubles.ValueError
  end.

Definition doubles_skeleton : Doubles.Library := {|
  Doubles.to_datetime := doubles_to_datetime;
  Doubles.np_exp := fun x =>
    if PrimFloat.eqb x 0 then 1%float else nan;
  Doubles.np_log := fun x =>
    if PrimFloat.eqb x 1 then 0%float
    else if PrimFloat.eqb x 0 then neg_infinity
    else if PrimFloat.eqb x infinity then infinity
    else nan;
  Doubles.cdf := fun x =>
    if PrimFloat.eqb x neg_infinity then 0%float
    else if PrimFloat.eqb x infinity then 1%float
    else nan;
  Doubles.float_pow := fun x y =>
    if PrimFloat.eqb x 1 then Doubles.Ok 1%float else Doubles.Ok nan
|}.

(** ** The standard normal distribution function

  [NormalDist().cdf] is an external primitive.  The theorems take it
  through the characterisation [standard_normal]; this module also builds
  a function that meets it, from the Riemann integral of the density. *)

Module NormalDist.

(** The density of the standard normal law, up to its constant factor. *)
Definition density (x : R) : R := exp (- (x * x) / 2).

Definition tends_left (F : R -> R) (l : R) : Prop :=
  forall eps, 0 < eps -> exists M, forall x, x < M -> Rabs (F x - l) < eps.

Definition tends_right (F : R -> R) (l : R) : Prop :=
  forall eps, 0 < eps -> exists M, forall x, M < x -> Rabs (F x - l) < eps.

(** What [cdf] is taken to be: the distribution function of the law whose
  density is proportional to [exp (- x^2 / 2)].  The two limits fix the
  constant factor: [standard_normal_unique] below shows that one function
  only meets this description. *)
Definition standard_normal (F : R -> R) : Prop :=
  (exists c, 0 < c /\ forall x, derivable_pt_lim F x (c * density x))
  /\ tends_left F 0 /\ tends_right F 1.

Lemma density_pos x : 0 < density x.
Proof. apply exp_pos. Qed.

Lemma density_even x : density (- x) = density x.
Proof. unfold density. f_equal. lra. Qed.

Lemma density_shift d s :
  density (d - s) = density d * exp (d * s - s * s / 2).
Proof.
  unfold density. rewrite <- exp_plus. f_equal. lra.
Qed.

Lemma derivable_pt_lim_eq f x l l' :
  derivable_pt_lim f x l -> l = l' -> derivable_pt_lim f x l'.
Proof. intros H <-. exact H. Qed.

Lemma above_left_limit h x :
  strict_increasing h -> tends_left h 0 -> 0 < h x.
Proof.
  intros Hinc Hlim.
  destruct (Rlt_le_dec 0 (h x)) as [Hp | Hn]; [exact Hp | exfalso].
  assert (Hx : h (x - 1) < 0).
  { apply Rlt_le_trans with (h x); [apply Hinc; lra | exact Hn]. }
  destruct (Hlim (- h (x - 1))) as [M HM]; [lra |].
  set (y := Rmin M (x - 1) - 1).
  assert (HyM : y < M) by (unfold y; pose proof (Rmin_l M (x - 1)); lra).
  assert (Hyx : y < x - 1) by (unfold y; pose proof (Rmin_r M (x - 1)); lra).
  specialize (HM y HyM). specialize (Hinc y (x - 1) Hyx).
  rewrite Rminus_0_r in HM.
  rewrite Rabs_left in HM; lra.
Qed.

Lemma below_right_limit h x :
  strict_increasing h -> tends_right h 1 -> h x < 1.
Proof.
  intros Hinc Hlim.
  destruct (Rlt_le_dec (h x) 1) as [Hp | Hn]; [exact Hp | exfalso].
  assert (Hx : 1 < h (x + 1)).
  { apply Rle_lt_trans with (h x); [exact Hn | apply Hinc; lra]. }
  destruct (Hlim (h (x + 1) - 1)) as [M HM]; [lra |].
  set (y := Rmax M (x + 1) + 1).
  assert (HyM : M < y) by (unfold y; pose proof (Rmax_l M (x + 1)); lra).
  assert (Hyx : x + 1 < y) by (unfold y; pose proof (Rmax_r M (x + 1)); lra).
  specialize (HM y HyM). specialize (Hinc (x + 1) y Hyx).
  rewrite Rabs_right in HM; lra.
Qed.

Section NormalFacts.
Variables (F : R -> R) (c : R).
Hypothesis c_pos : 0 < c.
Hypothesis F_deriv : forall x, derivable_pt_lim F x (c * density x).
Hypothesis F_left : tends_left F 0.
Hypothesis F_right : tends_right F 1.

Lemma normal_increasing : strict_increasing F.
Proof.
  assert (pr : derivable F) by (intro x; exists (c * density x); apply F_deriv).
  apply (positive_derivative F pr). intro x.
  rewrite (derive_pt_eq_0 _ _ _ (pr x) (F_deriv x)).
  apply Rmult_lt_0_compat; [exact c_pos | apply density_pos].
Qed.

Lemma normal_pos x : 0 < F x.
Proof. apply above_left_limit; [apply normal_increasing | exact F_left]. Qed.

Lemma normal_lt_1 x : F x < 1.
Proof. apply below_right_limit; [apply normal_increasing | exact F_right]. Qed.

Lemma normal_mirror_deriv x :
  derivable_pt_lim (fun y => F y + F (- y)) x 0.
Proof.
  apply derivable_pt_lim_eq with (c * density x + c * density (- x) * -1).
  - apply (derivable_pt_lim_plus F (fun y => F (- y))); [apply F_deriv |].
    apply (derivable_pt_lim_comp (fun y => - y) F).
    + apply derivable_pt_lim_eq with (- 1); [| lra].
      apply (derivable_pt_lim_opp id). apply derivable_pt_lim_id.
    + apply F_deriv.
  - rewrite density_even. ring.
Qed.

Lemma normal_symmetry x : F x + F (- x) = 1.
Proof.
  set (g := fun y => F y + F (- y)).
  assert (pr : derivable g) by (intro y; exists 0; apply normal_mirror_deriv).
  assert (Hc : constant g).
  { apply (null_derivative_1 g pr). intro y.
    apply derive_pt_eq_0, normal_mirror_deriv. }
  change (g x = 1).
  destruct (Req_dec (g x) 1) as [E | N]; [exact E | exfalso].
  assert (He : 0 < Rabs (g x - 1) / 2).
  { assert (N' : g x - 1 <> 0) by lra. apply Rabs_pos_lt in N'. lra. }
  destruct (F_left _ He) as [Ml HMl].
  destruct (F_right _ He) as [Mr HMr].
  set (y := Rmax (Rabs Ml) (Rabs Mr) + 1).
  assert (Hy1 : Mr < y).
  { unfold y. pose proof (Rmax_r (Rabs Ml) (Rabs Mr)). pose proof (Rle_abs Mr). lra. }
  assert (Hy2 : - y < Ml).
  { unfold y. pose proof (Rmax_l (Rabs Ml) (Rabs Mr)).
    pose proof (Rle_abs (- Ml)). rewrite Rabs_Ropp in H0. lra. }
  specialize (HMl _ Hy2). specialize (HMr _ Hy1).
  rewrite Rminus_0_r in HMl.
  replace (g x - 1) with ((F y - 1) + F (- y)) in *
    by (rewrite (Hc x y); unfold g; ring).
  pose proof (Rabs_triang (F y - 1) (F (- y))). lra.
Qed.

Lemma normal_tilt_deriv s d :
  derivable_pt_lim (fun y => exp (y * s - s * s / 2) * F y - F (y - s)) d
    (s * exp (d * s - s * s / 2) * F d).
Proof.
  apply derivable_pt_lim_eq with
    ((exp (d * s - s * s / 2) * (1 * s - 0)) * F d
     + exp (d * s - s * s / 2) * (c * density d)
     - c * density (d - s) * (1 - 0)).
  - apply (derivable_pt_lim_minus
             (fun y => exp (y * s - s * s / 2) * F y) (fun y => F (y - s))).
    + apply (derivable_pt_lim_mult (fun y => exp (y * s - s * s / 2)) F);
        [| apply F_deriv].
      apply (derivable_pt_lim_comp (fun y => y * s - s * s / 2) exp);
        [| apply derivable_pt_lim_exp].
      apply (derivable_pt_lim_minus (fun y => y * s) (fun _ => s * s / 2)).
      * apply (derivable_pt_lim_scal_right id). apply derivable_pt_lim_id.
      * apply (derivable_pt_lim_const (s * s / 2)).
    + apply (derivable_pt_lim_comp (fun y => y - s) F); [| apply F_deriv].
      apply (derivable_pt_lim_minus id (fun _ => s));
        [apply derivable_pt_lim_id | apply (derivable_pt_lim_const s)].
  - rewrite density_shift. ring.
Qed.

Lemma normal_tilt s d :
  0 < s -> F (d - s) < exp (d * s - s * s / 2) * F d.
Proof.
  intro Hs.
  set (h := fun y => exp (y * s - s * s / 2) * F y - F (y - s)).
  assert (pr : derivable h).
  { intro y. exists (s * exp (y * s - s * s / 2) * F y).
    apply normal_tilt_deriv. }
  assert (Hinc : strict_increasing h).
  { apply (positive_derivative h pr). intro y.
    rewrite (derive_pt_eq_0 _ _ _ (pr y) (normal_tilt_deriv s y)).
    apply Rmult_lt_0_compat; [| apply normal_pos].
    apply Rmult_lt_0_compat; [exact Hs | apply exp_pos]. }
  assert (Hlim : tends_left h 0).
  { intros eps He.
    destruct (F_left (eps / 2)) as [M HM]; [lra |].
    exists (Rmin M 0). intros y Hy.
    assert (HyM : y < M) by (pose proof (Rmin_l M 0); lra).
    assert (Hy0 : y < 0) by (pose proof (Rmin_r M 0); lra).
    pose proof (HM y HyM) as H1.
    assert (HysM : y - s < M) by lra.
    pose proof (HM (y - s) HysM) as H2.
    rewrite Rminus_0_r in *.
    pose proof (normal_pos y) as P1. pose proof (normal_pos (y - s)) as P2.
    rewrite Rabs_right in H1, H2 by lra.
    assert (E1 : exp (y * s - s * s / 2) < 1).
    { rewrite <- exp_0. apply exp_increasing. nra. }
    pose proof (exp_pos (y * s - s * s / 2)) as E0.
    unfold h. apply Rabs_def1; nra. }
  pose proof (above_left_limit h d Hinc Hlim) as H. unfold h in H. lra.
Qed.
End NormalFacts.

Lemma density_deriv x : derivable_pt_lim density x (density x * (- x)).
Proof.
  unfold density.
  apply derivable_pt_lim_eq with (exp (- (x * x) / 2) * (- (1 * x + x * 1) / 2)).
  - apply (derivable_pt_lim_comp (fun y => - (y * y) / 2) exp);
      [| apply derivable_pt_lim_exp].
    apply (derivable_pt_lim_scal_right (fun y => - (y * y)) x (- (1 * x + x * 1)) (/ 2)).
    apply (derivable_pt_lim_opp (fun y => y * y)).
    apply (derivable_pt_lim_mult id id); apply derivable_pt_lim_id.
  - field.
Qed.

Lemma density_continuity : continuity density.
Proof.
  intro x. apply derivable_continuous_pt.
  exists (density x * (- x)). apply density_deriv.
Qed.

Lemma density_integrable a b : Riemann_integrable density a b.
Proof.
  destruct (Rle_dec a b) as [H | H].
  - apply continuity_implies_RiemannInt; [exact H |].
    intros; apply density_continuity.
  - apply RiemannInt_P1, continuity_implies_RiemannInt; [lra |].
    intros; apply density_continuity.
Qed.

(** The signed area under the density between [0] and [x]. *)
Definition area (x : R) : R := RiemannInt (density_integrable 0 x).

Lemma area_0 : area 0 = 0.
Proof. unfold area. apply RiemannInt_P9. Qed.

Lemma area_chasles a y (pr : Riemann_integrable density a y) :
  area y = area a + RiemannInt pr.
Proof. unfold area. symmetry. apply RiemannInt_P26. Qed.

Lemma area_deriv x : derivable_pt_lim area x (density x).
Proof.
  assert (h : x - 1 <= x + 1) by lra.
  assert (C0 : forall y, x - 1 <= y <= x + 1 -> continuity_pt density y)
    by (intros; apply density_continuity).
  assert (HP : derivable_pt_lim (primitive h (FTC_P1 h C0)) x (density x))
    by (apply RiemannInt_P28; lra).
  assert (E : forall y, x - 1 <= y <= x + 1 ->
                area y = area (x - 1) + primitive h (FTC_P1 h C0) y).
  { intros y [Hy1 Hy2]. unfold primitive.
    destruct (Rle_dec (x - 1) y) as [r | n]; [| contradiction].
    destruct (Rle_dec y (x + 1)) as [r0 | n]; [| contradiction].
    apply area_chasles. }
  intros eps He. destruct (HP eps He) as [delta Hd].
  assert (Hm : 0 < Rmin delta 1).
  { apply Rmin_glb_lt; [apply cond_pos | lra]. }
  exists (mkposreal _ Hm). simpl. intros k Hk0 Hk.
  assert (Hk1 : Rabs k < delta) by (pose proof (Rmin_l delta 1); lra).
  assert (Hk2 : Rabs k < 1) by (pose proof (Rmin_r delta 1); lra).
  apply Rabs_def2 in Hk2.
  rewrite (E (x + k)), (E x) by lra.
  replace (area (x - 1) + primitive h (FTC_P1 h C0) (x + k)
           - (area (x - 1) + primitive h (FTC_P1 h C0) x))
    with (primitive h (FTC_P1 h C0) (x + k) - primitive h (FTC_P1 h C0) x)
    by ring.
  apply Hd; assumption.
Qed.

Lemma area_derivable : derivable area.
Proof. intro x. exists (density x). apply area_deriv. Qed.

Lemma area_increasing : strict_increasing area.
Proof.
  apply (positive_derivative area area_derivable). intro x.
  rewrite (derive_pt_eq_0 _ _ _ (area_derivable x) (area_deriv x)).
  apply density_pos.
Qed.

Lemma area_odd x : area (- x) = - area x.
Proof.
  set (g := fun y => area y + area (- y)).
  assert (D : forall y, derivable_pt_lim g y 0).
  { intro y.
    apply derivable_pt_lim_eq with (density y + density (- y) * -1).
    - apply (derivable_pt_lim_plus area (fun z => area (- z)));
        [apply area_deriv |].
      apply (derivable_pt_lim_comp (fun z => - z) area); [| apply area_deriv].
      apply derivable_pt_lim_eq with (- 1); [| lra].
      apply (derivable_pt_lim_opp id). apply derivable_pt_lim_id.
    - rewrite density_even. ring. }
  assert (pr : derivable g) by (intro y; exists 0; apply D).
  assert (Hc : constant g).
  { apply (null_derivative_1 g pr). intro y. apply derive_pt_eq_0, D. }
  pose proof (Hc x 0) as H. unfold g in H.
  rewrite Ropp_0, area_0 in H. lra.
Qed.

(** [exp (1/2 - x)] dominates the density, which bounds the area. *)
Lemma density_le_exp x : density x <= exp (1 / 2 - x).
Proof.
  unfold density.
  destruct (Req_dec x 1) as [-> | N].
  - right. f_equal. lra.
  - left. apply exp_increasing. nra.
Qed.

Lemma area_bounded x : area x < exp (1 / 2).
Proof.
  set (g := fun y => exp (1 / 2) - exp (1 / 2 - y) - area y).
  assert (D : forall y, derivable_pt_lim g y (exp (1 / 2 - y) - density y)).
  { intro y.
    apply derivable_pt_lim_eq with (0 - exp (1 / 2 - y) * (0 - 1) - density y);
      [| ring].
    apply (derivable_pt_lim_minus
             (fun z => exp (1 / 2) - exp (1 / 2 - z)) area); [| apply area_deriv].
    apply (derivable_pt_lim_minus (fun _ => exp (1 / 2))
             (fun z => exp (1 / 2 - z)));
      [apply (derivable_pt_lim_const (exp (1 / 2))) |].
    apply (derivable_pt_lim_comp (fun z => 1 / 2 - z) exp);
      [| apply derivable_pt_lim_exp].
    apply (derivable_pt_lim_minus (fun _ => 1 / 2) id);
      [apply (derivable_pt_lim_const (1 / 2)) | apply derivable_pt_lim_id]. }
  assert (pr : derivable g) by (intro y; eexists; apply D).
  assert (Hinc : increasing g).
  { apply (nonneg_derivative_1 g pr). intro y.
    rewrite (derive_pt_eq_0 _ _ _ (pr y) (D y)).
    pose proof (density_le_exp y). lra. }
  destruct (Rle_dec 0 x) as [Hx | Hx].
  - pose proof (Hinc 0 x Hx) as H. unfold g in H.
    rewrite area_0 in H.
    replace (1 / 2 - 0) with (1 / 2) in H by ring.
    pose proof (exp_pos (1 / 2 - x)). lra.
  - assert (Hlt : area x < area 0) by (apply area_increasing; lra).
    rewrite area_0 in Hlt. pose proof (exp_pos (1 / 2)). lra.
Qed.

(** The mass of the half line [0, +oo), as the least upper bound of the
  areas. *)
Definition area_values (y : R) : Prop := exists x, y = area x.

Lemma area_values_bound : bound area_values.
Proof.
  exists (exp (1 / 2)). intros y [x ->]. left. apply area_bounded.
Qed.

Lemma area_values_inhabited : exists y, area_values y.
Proof. exists (area 0), 0. reflexivity. Qed.

Definition half_mass : R :=
  proj1_sig (completeness area_values area_values_bound area_values_inhabited).

Lemma half_mass_lub : is_lub area_values half_mass.
Proof.
  unfold half_mass.
  destruct (completeness area_values area_values_bound area_values_inhabited).
  assumption.
Qed.

Lemma area_lt_half_mass x : area x < half_mass.
Proof.
  apply Rlt_le_trans with (area (x + 1)).
  - apply area_increasing. lra.
  - apply half_mass_lub. exists (x + 1). reflexivity.
Qed.

Lemma half_mass_pos : 0 < half_mass.
Proof. rewrite <- area_0. apply area_lt_half_mass. Qed.

Lemma area_tends_right : tends_right area half_mass.
Proof.
  intros eps He.
  assert (Hx : exists x, half_mass - eps < area x).
  { destruct (classic (exists x, half_mass - eps < area x)) as [H | H];
      [exact H | exfalso].
    assert (Hub : is_upper_bound area_values (half_mass - eps)).
    { intros y [x ->]. apply Rnot_lt_le. intro Hlt. apply H. exists x. exact Hlt. }
    pose proof (proj2 half_mass_lub _ Hub). lra. }
  destruct Hx as [x0 Hx0]. exists x0. intros x Hx.
  pose proof (area_increasing x0 x Hx). pose proof (area_lt_half_mass x).
  apply Rabs_def1; lra.
Qed.

Lemma area_tends_left : tends_left area (- half_mass).
Proof.
  intros eps He. destruct (area_tends_right eps He) as [M HM].
  exists (- M). intros x Hx.
  assert (H : M < - x) by lra. specialize (HM _ H).
  rewrite area_odd in HM.
  replace (area x - - half_mass) with (- (- area x - half_mass)) by ring.
  rewrite Rabs_Ropp. exact HM.
Qed.

(** The distribution function: the mass left of [x] over the whole mass. *)
Definition cdf (x : R) : R := (half_mass + area x) / (2 * half_mass).

Lemma cdf_deriv x : derivable_pt_lim cdf x (/ (2 * half_mass) * density x).
Proof.
  pose proof half_mass_pos as Hm.
  apply derivable_pt_lim_eq with ((0 + density x) * / (2 * half_mass));
    [| ring].
  apply (derivable_pt_lim_scal_right (fun y => half_mass + area y)).
  apply (derivable_pt_lim_plus (fun _ => half_mass) area);
    [apply (derivable_pt_lim_const half_mass) | apply area_deriv].
Qed.

Lemma cdf_standard_normal : standard_normal cdf.
Proof.
  pose proof half_mass_pos as Hm.
  split; [| split].
  - exists (/ (2 * half_mass)). split.
    + apply Rinv_0_lt_compat. lra.
    + apply cdf_deriv.
  - intros eps He.
    destruct (area_tends_left (eps * (2 * half_mass))) as [M HM]; [nra |].
    exists M. intros x Hx. specialize (HM x Hx).
    unfold cdf.
    replace ((half_mass + area x) / (2 * half_mass) - 0)
      with ((area x - - half_mass) * / (2 * half_mass)) by (field; lra).
    rewrite Rabs_mult, (Rabs_right (/ (2 * half_mass))).
    + apply Rmult_lt_reg_r with (2 * half_mass); [lra |].
      rewrite Rmult_assoc, Rinv_l, Rmult_1_r by lra. exact HM.
    + left. apply Rinv_0_lt_compat. lra.
  - intros eps He.
    destruct (area_tends_right (eps * (2 * half_mass))) as [M HM]; [nra |].
    exists M. intros x Hx. specialize (HM x Hx).
    unfold cdf.
    replace ((half_mass + area x) / (2 * half_mass) - 1)
      with ((area x - half_mass) * / (2 * half_mass)) by (field; lra).
    rewrite Rabs_mult, (Rabs_right (/ (2 * half_mass))).
    + apply Rmult_lt_reg_r with (2 * half_mass); [lra |].
      rewrite Rmult_assoc, Rinv_l, Rmult_1_r by lra. exact HM.
    + left. apply Rinv_0_lt_compat. lra.
Qed.

(** [standard_normal] determines the function: two functions that meet it
  are equal. *)
Lemma small_is_zero (a C : R) :
  0 < C -> (forall eps, 0 < eps -> Rabs a <= C * eps) -> a = 0.
Proof.
  intros HC H.
  destruct (Req_dec a 0) as [E | N]; [exact E | exfalso].
  apply Rabs_pos_lt in N.
  assert (He : 0 < Rabs a / (2 * C)).
  { apply Rdiv_lt_0_compat; lra. }
  specialize (H _ He).
  replace (C * (Rabs a / (2 * C))) with (Rabs a / 2) in H by (field; lra).
  lra.
Qed.

Lemma standard_normal_unique (F G : R -> R) :
  standard_normal F -> standard_normal G -> forall x, F x = G x.
Proof.
  intros [[cF [HcF HF]] [FL FR]] [[cG [HcG HG]] [GL GR]].
  set (k := cF / cG).
  assert (Hk : 0 < k) by (apply Rdiv_lt_0_compat; assumption).
  set (h := fun y => F y - k * G y).
  assert (D : forall y, derivable_pt_lim h y 0).
  { intro y.
    apply derivable_pt_lim_eq with (cF * density y - k * (cG * density y)).
    - apply (derivable_pt_lim_minus F (fun z => k * G z)); [apply HF |].
      apply (derivable_pt_lim_scal G). apply HG.
    - unfold k. field. lra. }
  assert (pr : derivable h) by (intro y; exists 0; apply D).
  assert (Hc : constant h).
  { apply (null_derivative_1 h pr). intro y. apply derive_pt_eq_0, D. }
  assert (H0 : forall y, h y = 0).
  { intro y. apply small_is_zero with (1 + k); [lra |].
    intros eps He.
    destruct (FL eps He) as [M1 H1]. destruct (GL eps He) as [M2 H2].
    set (z := Rmin M1 M2 - 1).
    assert (Hz1 : z < M1) by (unfold z; pose proof (Rmin_l M1 M2); lra).
    assert (Hz2 : z < M2) by (unfold z; pose proof (Rmin_r M1 M2); lra).
    specialize (H1 z Hz1). specialize (H2 z Hz2).
    rewrite Rminus_0_r in H1, H2.
    rewrite (Hc y z). unfold h.
    apply Rle_trans with (Rabs (F z) + Rabs (k * G z)).
    - unfold Rminus. rewrite <- (Rabs_Ropp (k * G z)). apply Rabs_triang.
    - rewrite Rabs_mult, (Rabs_right k) by lra. nra. }
  assert (Hk1 : 1 - k = 0).
  { apply small_is_zero with (1 + k); [lra |].
    intros eps He.
    destruct (FR eps He) as [M1 H1]. destruct (GR eps He) as [M2 H2].
    set (z := Rmax M1 M2 + 1).
    assert (Hz1 : M1 < z) by (unfold z; pose proof (Rmax_l M1 M2); lra).
    assert (Hz2 : M2 < z) by (unfold z; pose proof (Rmax_r M1 M2); lra).
    specialize (H1 z Hz1). specialize (H2 z Hz2).
    pose proof (H0 z) as Hz. unfold h in Hz.
    replace (1 - k) with (- (F z - 1) + k * (G z - 1)) by lra.
    apply Rle_trans with (Rabs (- (F z - 1)) + Rabs (k * (G z - 1))).
    - apply Rabs_triang.
    - rewrite Rabs_Ropp, Rabs_mult, (Rabs_right k) by lra. nra. }
  intro x. pose proof (H0 x) as Hx. unfold h in Hx.
  replace k with 1 in Hx by lra. lra.
Qed.

End NormalDist.

(** ** A reference library

  The date parser of [Calendar] and the distribution function of
  [NormalDist]. *)

Definition reference_library : Library := {|
  to_datetime := Calendar.strptime;
  cdf := NormalDist.cdf
|}.

(** The dates of the test scenarios. *)
Example strptime_trade :
  Calendar.strptime "23.11.2022" = Ok 738482%Z.
Proof. vm_compute. reflexivity. Qed.

Example strptime_expiry :
  Calendar.strptime "10.05.2023" = Ok 738650%Z.
Proof. vm_compute. reflexivity. Qed.

Example strptime_bad :
  Calendar.strptime "2023-05-10" = Raise ValueError
  /\ Calendar.strptime "31.02.2023" = Raise ValueError.
Proof. split; vm_compute; reflexivity. Qed.

(** ** Evaluating the two variants

  Once the dates parse, every property of the forward variant returns the
  specification's expression; the spot variant moreover needs a strike
  other than zero for its plain Python division. *)

Section Evaluation.
Context {L : Library}.
Variables (o : VanillaOption) (t : R).
Hypothesis dates_parse : time_to_expiry o = Ok t.

Let S := spot_price o.
Let K := strike_price o.
Let r := risk_free_cont o.
Let v := volatility o.
Let p := Formula.forward_price S r t.
Let a := Formula.forward_d1 p K v t.
Let b := Formula.d2 a v t.

Lemma discount_code : exp (- r * t) = Formula.discount r t.
Proof. unfold Formula.discount. f_equal. ring. Qed.

Lemma forward_price_eval : ForwardPrice.price o = Ok p.
Proof. unfold ForwardPrice.price. rewrite dates_parse. reflexivity. Qed.

Lemma forward_d1_eval : ForwardPrice.d1 o = Ok a.
Proof.
  unfold ForwardPrice.d1.
  rewrite forward_price_eval, dates_parse. reflexivity.
Qed.

Lemma forward_d2_eval : ForwardPrice.d2 o = Ok b.
Proof.
  unfold ForwardPrice.d2. rewrite forward_d1_eval, dates_parse. reflexivity.
Qed.

Lemma forward_call_eval :
  ForwardPrice.call o = Ok (Formula.forward_call cdf a b p K r t).
Proof.
  unfold ForwardPrice.call.
  rewrite forward_d1_eval, forward_price_eval, forward_d2_eval, dates_parse.
  cbn [bind]. fold r K. rewrite discount_code. reflexivity.
Qed.

Lemma forward_put_eval :
  ForwardPrice.put o = Ok (Some (Formula.forward_put cdf a b p K r t)).
Proof.
  unfold ForwardPrice.put.
  rewrite forward_d2_eval, forward_d1_eval, forward_price_eval, dates_parse.
  cbn [bind]. fold r K. rewrite discount_code. reflexivity.
Qed.

Lemma forward_parity_eval :
  ForwardPrice.put_from_parity o =
  Ok (Some (Formula.parity_put (Formula.forward_call cdf a b p K r t) S K r t)).
Proof.
  unfold ForwardPrice.put_from_parity.
  rewrite forward_call_eval, dates_parse.
  cbn [bind]. fold r K S. rewrite discount_code. reflexivity.
Qed.

Hypothesis strike_nonzero : K <> 0.

Let a' := Formula.spot_d1 S K r v t.
Let b' := Formula.d2 a' v t.

Lemma spot_d1_eval : SpotPrice.d1 o = Ok a'.
Proof.
  unfold SpotPrice.d1, SpotPrice.price, truediv. cbn [bind]. fold K.
  destruct (Req_dec_T K 0) as [E | _]; [contradiction |].
  cbn [bind]. rewrite dates_parse. reflexivity.
Qed.

Lemma spot_d2_eval : SpotPrice.d2 o = Ok b'.
Proof.
  unfold SpotPrice.d2. rewrite spot_d1_eval, dates_parse. reflexivity.
Qed.

Lemma spot_call_eval :
  SpotPrice.call o = Ok (Formula.spot_call cdf a' b' S K r t).
Proof.
  unfold SpotPrice.call.
  rewrite spot_d1_eval, spot_d2_eval, dates_parse.
  unfold SpotPrice.price. cbn [bind]. fold r K S.
  rewrite discount_code. reflexivity.
Qed.

End Evaluation.

(** When a date does not parse, the [ValueError] reaches every property of
  the forward variant. *)
Lemma forward_raises {L : Library} (o : VanillaOption) (e : exn) :
  time_to_expiry o = Raise e ->
  ForwardPrice.price o = Raise e /\ ForwardPrice.d1 o = Raise e
  /\ ForwardPrice.d2 o = Raise e /\ ForwardPrice.call o = Raise e
  /\ ForwardPrice.put o = Raise e /\ ForwardPrice.put_from_parity o = Raise e.
Proof.
  intro H.
  assert (Hp : ForwardPrice.price o = Raise e)
    by (unfold ForwardPrice.price; rewrite H; reflexivity).
  assert (H1 : ForwardPrice.d1 o = Raise e)
    by (unfold ForwardPrice.d1; rewrite Hp; reflexivity).
  assert (H2 : ForwardPrice.d2 o = Raise e)
    by (unfold ForwardPrice.d2; rewrite H1; reflexivity).
  assert (Hc : ForwardPrice.call o = Raise e)
    by (unfold ForwardPrice.call; rewrite H1; reflexivity).
  repeat split; try assumption.
  - unfold ForwardPrice.put. rewrite H2. reflexivity.
  - unfold ForwardPrice.put_from_parity. rewrite Hc. reflexivity.
Qed.

(** A strike of zero stops the spot variant at its first division. *)
Lemma spot_d1_zero_strike {L : Library} (o : VanillaOption) :
  strike_price o = 0 -> SpotPrice.d1 o = Raise ZeroDivisionError.
Proof.
  intro H. unfold SpotPrice.d1, SpotPrice.price, truediv. cbn [bind].
  destruct (Req_dec_T (strike_price o) 0) as [_ | N];
    [reflexivity | contradiction].
Qed.

(** ** The arithmetic behind the claims *)

Lemma discount_pos (r t : R) : 0 < Formula.discount r t.
Proof. apply exp_pos. Qed.

Lemma forward_price_pos (S r t : R) :
  0 < S -> 0 < Formula.forward_price S r t.
Proof. intro H. apply Rmult_lt_0_compat; [exact H | apply exp_pos]. Qed.

Lemma forward_price_discount (S r t : R) :
  Formula.forward_price S r t * Formula.discount r t = S.
Proof.
  unfold Formula.forward_price, Formula.discount.
  rewrite Rmult_assoc, <- exp_plus.
  replace (r * t + - (r * t)) with 0 by ring.
  rewrite exp_0. ring.
Qed.

(** The forward price is the strike tilted by [d1]. *)
Lemma forward_d1_tilt (p K v t : R) :
  0 < p -> 0 < K -> 0 < v -> 0 < t ->
  let s := v * sqrt t in
  let a := Formula.forward_d1 p K v t in
  p = K * exp (a * s - s * s / 2).
Proof.
  intros Hp HK Hv Ht s a.
  assert (Hq : 0 < sqrt t) by (apply sqrt_lt_R0; exact Ht).
  assert (Hs : 0 < s) by (apply Rmult_lt_0_compat; assumption).
  assert (Hss : s * s = v ^ 2 * t).
  { unfold s. replace (v * sqrt t * (v * sqrt t))
      with (v ^ 2 * (sqrt t * sqrt t)) by ring.
    rewrite sqrt_sqrt by lra. reflexivity. }
  assert (E : a * s - s * s / 2 = ln (p / K)).
  { unfold a, Formula.forward_d1. fold s. rewrite Hss. field. lra. }
  rewrite E, exp_ln.
  - field. lra.
  - apply Rdiv_lt_0_compat; assumption.
Qed.

Lemma spot_forward_d1 (S K r v t : R) :
  0 < S -> 0 < K ->
  Formula.spot_d1 S K r v t
  = Formula.forward_d1 (Formula.forward_price S r t) K v t.
Proof.
  intros HS HK. unfold Formula.spot_d1, Formula.forward_d1.
  assert (E : ln (Formula.forward_price S r t / K) = ln (S / K) + r * t).
  { unfold Formula.forward_price.
    replace (S * exp (r * t) / K) with (S / K * exp (r * t)) by (field; lra).
    rewrite ln_mult, ln_exp.
    - reflexivity.
    - apply Rdiv_lt_0_compat; assumption.
    - apply exp_pos. }
  rewrite E.
  replace (ln (S / K) + t * (r + v ^ 2 / 2))
    with (ln (S / K) + r * t + t * v ^ 2 / 2) by field.
  reflexivity.
Qed.

Lemma spot_forward_call (Phi : R -> R) (a b S K r t : R) :
  Formula.spot_call Phi a b S K r t
  = Formula.forward_call Phi a b (Formula.forward_price S r t) K r t.
Proof.
  unfold Formula.spot_call, Formula.forward_call.
  rewrite Rmult_minus_distr_r.
  rewrite (Rmult_assoc (Phi a)), forward_price_discount. reflexivity.
Qed.

Section Core.
Variable Phi : R -> R.
Hypothesis Phi_normal : NormalDist.standard_normal Phi.

Lemma Phi_symmetry (x : R) : Phi x + Phi (- x) = 1.
Proof.
  destruct Phi_normal as [[c [Hc Hd]] [Hl Hr]].
  exact (NormalDist.normal_symmetry Phi c Hd Hl Hr x).
Qed.

Lemma Phi_tilt (s d : R) :
  0 < s -> Phi (d - s) < exp (d * s - s * s / 2) * Phi d.
Proof.
  destruct Phi_normal as [[c [Hc Hd]] [Hl Hr]].
  exact (NormalDist.normal_tilt Phi c Hc Hd Hl s d).
Qed.

Lemma parity_core (a b S K r t : R) :
  let p := Formula.forward_price S r t in
  Formula.forward_call Phi a b p K r t - Formula.forward_put Phi a b p K r t
  = Formula.parity_rhs S K r t.
Proof.
  intro p. unfold Formula.forward_call, Formula.forward_put, Formula.parity_rhs.
  pose proof (Phi_symmetry a) as Ha. pose proof (Phi_symmetry b) as Hb.
  replace ((Phi a * p - Phi b * K) * Formula.discount r t
           - (Phi (- b) * K - Phi (- a) * p) * Formula.discount r t)
    with ((Phi a + Phi (- a)) * (p * Formula.discount r t)
          - (Phi b + Phi (- b)) * K * Formula.discount r t) by ring.
  rewrite Ha, Hb. unfold p. rewrite forward_price_discount. ring.
Qed.

Lemma sign_core (p K v t : R) :
  0 < p -> 0 < K -> 0 < v -> 0 < t ->
  let a := Formula.forward_d1 p K v t in
  let b := Formula.d2 a v t in
  Phi b * K < Phi a * p /\ Phi (- a) * p < Phi (- b) * K.
Proof.
  intros Hp HK Hv Ht a b.
  set (s := v * sqrt t).
  assert (Hs : 0 < s).
  { apply Rmult_lt_0_compat; [exact Hv | apply sqrt_lt_R0; exact Ht]. }
  pose proof (forward_d1_tilt p K v t Hp HK Hv Ht) as E.
  cbv zeta in E. fold s a in E.
  assert (Hb : b = a - s) by reflexivity.
  split.
  - rewrite E at 1. rewrite Hb.
    pose proof (Phi_tilt s a Hs) as H.
    replace (Phi a * (K * exp (a * s - s * s / 2)))
      with (K * (exp (a * s - s * s / 2) * Phi a)) by ring.
    rewrite (Rmult_comm (Phi (a - s)) K).
    apply Rmult_lt_compat_l; assumption.
  - pose proof (Phi_tilt s (- b) Hs) as H.
    replace (- b - s) with (- a) in H by (rewrite Hb; ring).
    replace (- b * s - s * s / 2) with (- (a * s - s * s / 2)) in H
      by (rewrite Hb; field).
    assert (Hk : K = p * exp (- (a * s - s * s / 2))).
    { rewrite E at 1. rewrite Rmult_assoc, <- exp_plus.
      replace (a * s - s * s / 2 + - (a * s - s * s / 2)) with 0 by ring.
      rewrite exp_0. ring. }
    rewrite Hk at 1.
    replace (Phi (- b) * (p * exp (- (a * s - s * s / 2))))
      with (p * (exp (- (a * s - s * s / 2)) * Phi (- b))) by ring.
    rewrite (Rmult_comm (Phi (- a)) p).
    apply Rmult_lt_compat_l; assumption.
Qed.

End Core.

(** ** Facts about the reference library and the test scenarios *)

Lemma reference_normal : NormalDist.standard_normal (@cdf reference_library).
Proof. exact NormalDist.cdf_standard_normal. Qed.

Lemma ln_lower (y : R) : 0 < y -> 1 - / y <= ln y.
Proof.
  intro Hy. pose proof (exp_ineq1_le (ln (/ y))) as H.
  rewrite exp_ln in H by (apply Rinv_0_lt_compat; exact Hy).
  rewrite ln_Rinv in H by exact Hy. lra.
Qed.

Lemma ln_upper (y : R) : 0 < y -> ln y <= y - 1.
Proof.
  intro Hy. pose proof (exp_ineq1_le (ln y)) as H.
  rewrite exp_ln in H by exact Hy. lra.
Qed.

(** At the rate of the scenarios the discount factor over the 168 days is
  below 0.999. *)
Lemma scenario_discount :
  Formula.discount (ln (1 + 5 / 1000)) (168 / 365) < 999 / 1000.
Proof.
  unfold Formula.discount.
  pose proof (ln_lower (1 + 5 / 1000)) as Hl.
  assert (Hr : 4 / 1000 <= ln (1 + 5 / 1000)) by lra.
  set (x := ln (1 + 5 / 1000) * (168 / 365)).
  assert (Hx : 18 / 10000 < x) by (unfold x; lra).
  pose proof (exp_ineq1_le x) as He.
  rewrite exp_Ropp.
  apply Rmult_lt_reg_r with (exp x); [apply exp_pos |].
  rewrite Rinv_l by (pose proof (exp_pos x); lra).
  nra.
Qed.

(** At a rate of minus half a percent it is above 1.002. *)
Lemma negative_rate_discount :
  1002 / 1000 < Formula.discount (ln (1 + - 5 / 1000)) (168 / 365).
Proof.
  unfold Formula.discount.
  pose proof (ln_upper (1 + - 5 / 1000)) as Hu.
  assert (Hr : ln (1 + - 5 / 1000) <= - 5 / 1000) by lra.
  set (x := - (ln (1 + - 5 / 1000) * (168 / 365))).
  assert (Hx : 23 / 10000 < x) by (unfold x; lra).
  pose proof (exp_ineq1_le x). lra.
Qed.

Lemma differ_only_in_dividends_inv (o1 o2 : VanillaOption) :
  differ_only_in_dividends o1 o2 -> o2 = with_dividends o1 (dividends o2).
Proof.
  destruct o1, o2. unfold differ_only_in_dividends, with_dividends.
  cbn. intros (-> & -> & -> & -> & -> & ->). reflexivity.
Qed.

Lemma same_outputs_with_dividends {L : Library} (o : VanillaOption) (x : R) :
  same_outputs SpotPrice.model o (with_dividends o x)
  /\ same_outputs ForwardPrice.model o (with_dividends o x)
  /\ time_to_expiry o = time_to_expiry (with_dividends o x)
  /\ risk_free_cont o = risk_free_cont (with_dividends o x).
Proof.
  destruct o. unfold same_outputs. cbn. repeat split; reflexivity.
Qed.

(** ** The claims *)

Section Claims.
Context {L : Library}.
Hypothesis cdf_normal : NormalDist.standard_normal cdf.

(** C1. Put-call parity of the forward variant: for a contract with
  positive spot, strike, volatility and time to expiry, [call] and [put]
  return numbers whose difference is exactly
  [spot - strike * exp (- continuous_rate * time_to_expiry)], hence within
  the tolerance of 1e-4. *)
Theorem forward_put_call_parity (o : VanillaOption) (t : R) :
  0 < spot_price o -> 0 < strike_price o -> 0 < volatility o ->
  time_to_expiry o = Ok t -> 0 < t ->
  exists c p,
    ForwardPrice.call o = Ok c
    /\ ForwardPrice.put o = Ok (Some p)
    /\ c - p = spot_price o - strike_price o * exp (- (risk_free_cont o * t))
    /\ Rabs (c - p
             - (spot_price o - strike_price o * exp (- (risk_free_cont o * t))))
       <= atol.
Proof.
  intros _ _ _ Ht _.
  eexists. eexists.
  split; [apply (forward_call_eval o t Ht) |].
  split; [apply (forward_put_eval o t Ht) |].
  assert (E := parity_core cdf cdf_normal).
  cbv zeta in E. unfold Formula.parity_rhs, Formula.discount in E.
  split.
  - apply E.
  - rewrite E. unfold Rminus. rewrite Rplus_opp_r, Rabs_R0.
    unfold atol. lra.
Qed.

(** C2. Parity self-consistency of the forward variant: under the same
  conditions [put_from_parity], which is
  [call - spot + strike * exp (- continuous_rate * time_to_expiry)], and
  [put] return the same number. *)
Theorem forward_parity_consistent (o : VanillaOption) (t : R) :
  0 < spot_price o -> 0 < strike_price o -> 0 < volatility o ->
  time_to_expiry o = Ok t -> 0 < t ->
  exists c q p,
    ForwardPrice.call o = Ok c
    /\ ForwardPrice.put_from_parity o = Ok (Some q)
    /\ q = c - spot_price o
           + strike_price o * exp (- (risk_free_cont o * t))
    /\ ForwardPrice.put o = Ok (Some p)
    /\ q = p
    /\ Rabs (q - p) <= atol.
Proof.
  intros _ _ _ Ht _.
  eexists. eexists. eexists.
  split; [apply (forward_call_eval o t Ht) |].
  split; [apply (forward_parity_eval o t Ht) |].
  split; [reflexivity |].
  split; [apply (forward_put_eval o t Ht) |].
  assert (E := parity_core cdf cdf_normal).
  cbv zeta in E. unfold Formula.parity_rhs in E.
  match goal with |- ?q = ?p /\ _ => assert (Q : q = p) end.
  { match goal with
    | |- Formula.parity_put (Formula.forward_call _ ?a ?b _ _ _ _) _ _ _ _ = _ =>
        pose proof (E a b (spot_price o) (strike_price o)
                      (risk_free_cont o) t) as H
    end.
    unfold Formula.parity_put. lra. }
  split; [exact Q |].
  rewrite Q. unfold Rminus. rewrite Rplus_opp_r, Rabs_R0. unfold atol. lra.
Qed.

(** C3. The formulas of the forward variant: when the dates parse to the
  time to expiry [t], [price], [d1], [d2], [call] and [put] return the
  expressions of the specification. *)
Theorem forward_formulas (o : VanillaOption) (t : R) :
  time_to_expiry o = Ok t ->
  let S := spot_price o in
  let K := strike_price o in
  let r := risk_free_cont o in
  let v := volatility o in
  let p := S * exp (r * t) in
  let a := (ln (p / K) + t * v ^ 2 / 2) / (v * sqrt t) in
  let b := a - v * sqrt t in
  ForwardPrice.price o = Ok p
  /\ ForwardPrice.d1 o = Ok a
  /\ ForwardPrice.d2 o = Ok b
  /\ ForwardPrice.call o = Ok ((cdf a * p - cdf b * K) * exp (- (r * t)))
  /\ ForwardPrice.put o
     = Ok (Some ((cdf (- b) * K - cdf (- a) * p) * exp (- (r * t)))).
Proof.
  intros Ht S K r v p a b.
  split; [exact (forward_price_eval o t Ht) |].
  split; [exact (forward_d1_eval o t Ht) |].
  split; [exact (forward_d2_eval o t Ht) |].
  split; [exact (forward_call_eval o t Ht) | exact (forward_put_eval o t Ht)].
Qed.

(** C4. The formulas of the spot variant: when the dates parse to the time
  to expiry [t] and the strike is not zero, [price], [d1], [d2] and [call]
  return the expressions of the specification. *)
Theorem spot_formulas (o : VanillaOption) (t : R) :
  time_to_expiry o = Ok t ->
  strike_price o <> 0 ->
  let K := strike_price o in
  let r := risk_free_cont o in
  let v := volatility o in
  let p := spot_price o in
  let a := (ln (p / K) + t * (r + v ^ 2 / 2)) / (v * sqrt t) in
  let b := a - v * sqrt t in
  SpotPrice.price o = Ok p
  /\ SpotPrice.d1 o = Ok a
  /\ SpotPrice.d2 o = Ok b
  /\ SpotPrice.call o = Ok (cdf a * p - cdf b * K * exp (- (r * t))).
Proof.
  intros Ht HK K r v p a b.
  split; [reflexivity |].
  split; [exact (spot_d1_eval o t Ht HK) |].
  split; [exact (spot_d2_eval o t Ht HK) | exact (spot_call_eval o t Ht HK)].
Qed.

(** C5, as amended. Sign invariants of the forward variant over exact real
  arithmetic, with [cdf] the standard normal distribution function: for a
  contract with positive spot, strike, time to expiry and volatility,
  [call] and [put] return positive numbers. *)
Theorem forward_signs (o : VanillaOption) (t : R) :
  0 < spot_price o -> 0 < strike_price o ->
  time_to_expiry o = Ok t -> 0 < t -> 0 < volatility o ->
  exists c p,
    ForwardPrice.call o = Ok c
    /\ ForwardPrice.put o = Ok (Some p)
    /\ 0 < c
    /\ 0 < p.
Proof.
  intros HS HK Ht Htp Hv.
  eexists. eexists.
  split; [apply (forward_call_eval o t Ht) |].
  split; [apply (forward_put_eval o t Ht) |].
  pose proof (forward_price_pos _ (risk_free_cont o) t HS) as Hp.
  destruct (sign_core cdf cdf_normal _ _ _ _ Hp HK Hv Htp) as [Hc Hq].
  unfold Formula.forward_call, Formula.forward_put.
  pose proof (discount_pos (risk_free_cont o) t) as Hd.
  split; apply Rmult_lt_0_compat; lra.
Qed.

(** C6, as amended. Ordering of [call] and [put] in the forward variant:
  for a contract with positive spot, strike, time to expiry and
  volatility, the two are ordered as the spot and the discounted strike
  [strike * exp (- continuous_rate * time_to_expiry)] are.  Hence the spot
  above the strike gives [call > put] when the rate is not negative, the
  spot below the strike gives [put > call] when the rate is not positive,
  and at [spot = strike] the difference [call - put] is
  [spot * (1 - exp (- continuous_rate * time_to_expiry))]. *)
Theorem forward_ordering (o : VanillaOption) (t : R) :
  0 < spot_price o -> 0 < strike_price o ->
  time_to_expiry o = Ok t -> 0 < t -> 0 < volatility o ->
  let S := spot_price o in
  let K := strike_price o in
  let D := exp (- (risk_free_cont o * t)) in
  exists c p,
    ForwardPrice.call o = Ok c
    /\ ForwardPrice.put o = Ok (Some p)
    /\ (S > K * D -> c > p)
    /\ (S < K * D -> p > c)
    /\ (S = K * D -> c = p)
    /\ (0 <= risk_free_int o -> S > K -> c > p)
    /\ (-1 < risk_free_int o <= 0 -> S < K -> p > c)
    /\ (S = K -> c - p = S * (1 - D)).
Proof.
  intros HS HK Ht Htp Hv S K D. subst S K.
  eexists. eexists.
  split; [apply (forward_call_eval o t Ht) |].
  split; [apply (forward_put_eval o t Ht) |].
  assert (E := parity_core cdf cdf_normal).
  cbv zeta in E. unfold Formula.parity_rhs, Formula.discount in E.
  match goal with
  | |- (_ -> ?cv > ?pv) /\ _ =>
      assert (E' : cv - pv = spot_price o - strike_price o * D) by apply E;
      set (c := cv) in *; set (p := pv) in *
  end.
  clear E.
  assert (HD : 0 < D) by apply exp_pos.
  repeat split; intros; try lra.
  - assert (Hr : 0 <= risk_free_cont o).
    { unfold risk_free_cont. rewrite <- ln_1.
      destruct (Req_dec (risk_free_int o) 0) as [-> | N].
      - rewrite Rplus_0_r. lra.
      - left. apply ln_increasing; lra. }
    assert (HD1 : D <= 1).
    { unfold D. rewrite <- exp_0.
      destruct (Req_dec (risk_free_cont o * t) 0) as [-> | N].
      - rewrite Ropp_0. lra.
      - left. apply exp_increasing. nra. }
    nra.
  - assert (Hr : risk_free_cont o <= 0).
    { unfold risk_free_cont. rewrite <- ln_1.
      destruct (Req_dec (risk_free_int o) 0) as [-> | N].
      - rewrite Rplus_0_r. lra.
      - left. apply ln_increasing; lra. }
    assert (HD1 : 1 <= D).
    { unfold D. rewrite <- exp_0.
      destruct (Req_dec (risk_free_cont o * t) 0) as [-> | N].
      - rewrite Ropp_0. lra.
      - left. apply exp_increasing. nra. }
    nra.
  - nra.
Qed.

(** C7. Partial capability of the spot variant: for every contract, [put]
  and [put_from_parity] return [None]; they return no number and raise no
  exception. *)
Theorem spot_put_unsupported (o : VanillaOption) :
  SpotPrice.put o = Ok None
  /\ SpotPrice.put_from_parity o = Ok None
  /\ (forall x, SpotPrice.put o <> Ok (Some x)
                /\ SpotPrice.put_from_parity o <> Ok (Some x))
  /\ (forall e, SpotPrice.put o <> Raise e
                /\ SpotPrice.put_from_parity o <> Raise e).
Proof.
  unfold SpotPrice.put, SpotPrice.put_from_parity.
  repeat split; try reflexivity; discriminate.
Qed.

(** C8. Derived quantities of a contract: when the two date strings parse,
  [time_to_expiry] is the difference in days, expiry minus trade, divided
  by 365; [risk_free_cont] is the natural logarithm of one plus the rate.
  Both are functions of the fields they read: contracts with the same
  dates have the same [time_to_expiry], contracts with the same rate have
  the same [risk_free_cont]. *)
Theorem derived_quantities (o : VanillaOption) (expiry trade : Z) :
  to_datetime (expiry_date o) = Ok expiry ->
  to_datetime (trade_date o) = Ok trade ->
  time_to_expiry o = Ok (IZR (expiry - trade) / 365)
  /\ risk_free_cont o = ln (1 + risk_free_int o)
  /\ (forall o', trade_date o' = trade_date o ->
                 expiry_date o' = expiry_date o ->
                 time_to_expiry o' = time_to_expiry o)
  /\ (forall o', risk_free_int o' = risk_free_int o ->
                 risk_free_cont o' = risk_free_cont o).
Proof.
  intros He Hd. unfold time_to_expiry, risk_free_cont.
  split; [rewrite He, Hd; reflexivity |].
  split; [reflexivity |].
  split.
  - intros o' -> ->. reflexivity.
  - intros o' ->. reflexivity.
Qed.

(** C9. The two variants agree on their shared outputs: for a contract
  with positive spot, strike, volatility and time to expiry, [d1], [d2]
  and [call] of the spot variant return the numbers that those of the
  forward variant return. *)
Theorem spot_forward_agree (o : VanillaOption) (t : R) :
  0 < spot_price o -> 0 < strike_price o -> 0 < volatility o ->
  time_to_expiry o = Ok t -> 0 < t ->
  exists a b c,
    SpotPrice.d1 o = Ok a /\ ForwardPrice.d1 o = Ok a
    /\ SpotPrice.d2 o = Ok b /\ ForwardPrice.d2 o = Ok b
    /\ SpotPrice.call o = Ok c /\ ForwardPrice.call o = Ok c.
Proof.
  intros HS HK _ Ht _.
  assert (HK0 : strike_price o <> 0) by lra.
  pose proof (spot_forward_d1 (spot_price o) (strike_price o)
                (risk_free_cont o) (volatility o) t HS HK) as E.
  eexists. eexists. eexists.
  split; [apply (spot_d1_eval o t Ht HK0) |].
  split; [rewrite E; apply (forward_d1_eval o t Ht) |].
  split; [apply (spot_d2_eval o t Ht HK0) |].
  split; [rewrite E; apply (forward_d2_eval o t Ht) |].
  split; [apply (spot_call_eval o t Ht HK0) |].
  rewrite spot_forward_call, E. apply (forward_call_eval o t Ht).
Qed.

(** C10. Dividends do not interfere: two contracts that differ in the
  [dividends] field only have the same [price], [d1], [d2], [call], [put]
  and [put_from_parity] in both variants, and the same derived
  quantities. *)
Theorem dividends_noninterference (o1 o2 : VanillaOption) :
  differ_only_in_dividends o1 o2 ->
  same_outputs SpotPrice.model o1 o2
  /\ same_outputs ForwardPrice.model o1 o2
  /\ time_to_expiry o1 = time_to_expiry o2
  /\ risk_free_cont o1 = risk_free_cont o2.
Proof.
  intro H. rewrite (differ_only_in_dividends_inv o1 o2 H).
  apply same_outputs_with_dividends.
Qed.

End Claims.

(** ** The claims at the test scenarios *)

(** The scenarios run over 168 days. *)
Lemma test_dates_expiry (o : VanillaOption) :
  trade_date o = "23.11.2022"%string ->
  expiry_date o = "10.05.2023"%string ->
  @time_to_expiry reference_library o = Ok (168 / 365).
Proof.
  intros Ht He. unfold time_to_expiry.
  cbn [to_datetime reference_library]. rewrite Ht, He.
  rewrite strptime_expiry, strptime_trade. reflexivity.
Qed.

(** Parity with the reference library, in the form the scenarios use. *)
Lemma reference_parity (o : VanillaOption) (t : R) :
  @time_to_expiry reference_library o = Ok t ->
  exists c p,
    @ForwardPrice.call reference_library o = Ok c
    /\ @ForwardPrice.put reference_library o = Ok (Some p)
    /\ c - p = spot_price o
               - strike_price o * Formula.discount (risk_free_cont o) t.
Proof.
  intro Ht. eexists. eexists.
  split; [apply (forward_call_eval o t Ht) |].
  split; [apply (forward_put_eval o t Ht) |].
  apply (parity_core _ reference_normal).
Qed.

(** C6 as stated fails.  In the at-the-money scenario of the tests [call]
  and [put] are more than 1e-4 apart; with the spot just below the strike
  [call] is above [put]; with the spot just above the strike and a negative
  rate [put] is above [call]. *)
Lemma forward_ordering_as_stated_fails :
  (valid_contract reference_library atm (168 / 365)
   /\ spot_price atm = strike_price atm
   /\ exists c p,
        @ForwardPrice.call reference_library atm = Ok c
        /\ @ForwardPrice.put reference_library atm = Ok (Some p)
        /\ ~ Rabs (c - p) <= atol)
  /\ (valid_contract reference_library near_otm (168 / 365)
      /\ spot_price near_otm < strike_price near_otm
      /\ exists c p,
           @ForwardPrice.call reference_library near_otm = Ok c
           /\ @ForwardPrice.put reference_library near_otm = Ok (Some p)
           /\ ~ p > c)
  /\ (valid_contract reference_library near_itm_negative_rate (168 / 365)
      /\ spot_price near_itm_negative_rate
         > strike_price near_itm_negative_rate
      /\ exists c p,
           @ForwardPrice.call reference_library near_itm_negative_rate = Ok c
           /\ @ForwardPrice.put reference_library near_itm_negative_rate
              = Ok (Some p)
           /\ ~ c > p).
Proof.
  assert (V : forall o, trade_date o = "23.11.2022"%string ->
                        expiry_date o = "10.05.2023"%string ->
                        0 < spot_price o -> 0 < strike_price o ->
                        0 < volatility o ->
                        valid_contract reference_library o (168 / 365)).
  { intros o H1 H2 H3 H4 H5. unfold valid_contract.
    repeat split; try assumption; [apply test_dates_expiry; assumption | lra]. }
  pose proof scenario_discount as D1.
  pose proof negative_rate_discount as D2.
  pose proof (discount_pos (ln (1 + 5 / 1000)) (168 / 365)) as D0.
  split; [| split].
  - split; [apply V; cbn; try reflexivity; lra |].
    split; [reflexivity |].
    destruct (reference_parity atm (168 / 365)) as (c & p & Hc & Hp & E);
      [apply test_dates_expiry; reflexivity |].
    exists c, p. split; [exact Hc |]. split; [exact Hp |].
    change (c - p = 100 - 100 * Formula.discount (ln (1 + 5 / 1000)) (168 / 365))
      in E.
    unfold atol. rewrite Rabs_right; lra.
  - split; [apply V; cbn; try reflexivity; lra |].
    split; [cbn; lra |].
    destruct (reference_parity near_otm (168 / 365)) as (c & p & Hc & Hp & E);
      [apply test_dates_expiry; reflexivity |].
    exists c, p. split; [exact Hc |]. split; [exact Hp |].
    change (c - p = 100 - 1001 / 10
                          * Formula.discount (ln (1 + 5 / 1000)) (168 / 365))
      in E.
    lra.
  - split; [apply V; cbn; try reflexivity; lra |].
    split; [cbn; lra |].
    destruct (reference_parity near_itm_negative_rate (168 / 365))
      as (c & p & Hc & Hp & E);
      [apply test_dates_expiry; reflexivity |].
    exists c, p. split; [exact Hc |]. split; [exact Hp |].
    change (c - p = 1001 / 10 - 100
                    * Formula.discount (ln (1 + - 5 / 1000)) (168 / 365))
      in E.
    lra.
Qed.

(** ** The theorems at the in-the-money scenario *)

(** The in-the-money scenario meets the conditions of the formulas. *)
Lemma itm_valid : valid_contract reference_library itm (168 / 365).
Proof.
  unfold valid_contract. cbn [spot_price strike_price volatility itm scenario].
  split; [lra |]. split; [lra |]. split; [lra |].
  split; [apply test_dates_expiry; reflexivity | lra].
Qed.

(** Put-call parity at the in-the-money scenario. *)
Lemma forward_put_call_parity_witness :
  NormalDist.standard_normal (@cdf reference_library)
  /\ valid_contract reference_library itm (168 / 365)
  /\ exists c p,
       @ForwardPrice.call reference_library itm = Ok c
       /\ @ForwardPrice.put reference_library itm = Ok (Some p)
       /\ c - p = spot_price itm
                  - strike_price itm
                    * exp (- (risk_free_cont itm * (168 / 365)))
       /\ Rabs (c - p
                - (spot_price itm
                   - strike_price itm
                     * exp (- (risk_free_cont itm * (168 / 365)))))
          <= atol.
Proof.
  split; [exact reference_normal |].
  split; [exact itm_valid |].
  destruct itm_valid as (HS & HK & Hv & Ht & Htp).
  exact (@forward_put_call_parity reference_library reference_normal
           itm (168 / 365) HS HK Hv Ht Htp).
Defined.

(** Parity self-consistency at the in-the-money scenario. *)
Lemma forward_parity_consistent_witness :
  NormalDist.standard_normal (@cdf reference_library)
  /\ valid_contract reference_library itm (168 / 365)
  /\ exists c q p,
       @ForwardPrice.call reference_library itm = Ok c
       /\ @ForwardPrice.put_from_parity reference_library itm = Ok (Some q)
       /\ q = c - spot_price itm
              + strike_price itm * exp (- (risk_free_cont itm * (168 / 365)))
       /\ @ForwardPrice.put reference_library itm = Ok (Some p)
       /\ q = p
       /\ Rabs (q - p) <= atol.
Proof.
  split; [exact reference_normal |].
  split; [exact itm_valid |].
  destruct itm_valid as (HS & HK & Hv & Ht & Htp).
  exact (@forward_parity_consistent reference_library reference_normal
           itm (168 / 365) HS HK Hv Ht Htp).
Defined.

(** The forward formulas at the in-the-money scenario. *)
Lemma forward_formulas_witness :
  @time_to_expiry reference_library itm = Ok (168 / 365)
  /\ (let t := 168 / 365 in
      let S := spot_price itm in
      let K := strike_price itm in
      let r := risk_free_cont itm in
      let v := volatility itm in
      let p := S * exp (r * t) in
      let a := (ln (p / K) + t * v ^ 2 / 2) / (v * sqrt t) in
      let b := a - v * sqrt t in
      @ForwardPrice.price reference_library itm = Ok p
      /\ @ForwardPrice.d1 reference_library itm = Ok a
      /\ @ForwardPrice.d2 reference_library itm = Ok b
      /\ @ForwardPrice.call reference_library itm
         = Ok ((NormalDist.cdf a * p - NormalDist.cdf b * K)
               * exp (- (r * t)))
      /\ @ForwardPrice.put reference_library itm
         = Ok (Some ((NormalDist.cdf (- b) * K - NormalDist.cdf (- a) * p)
                     * exp (- (r * t))))).
Proof.
  split; [apply test_dates_expiry; reflexivity |].
  exact (@forward_formulas reference_library itm (168 / 365)
           (test_dates_expiry itm eq_refl eq_refl)).
Defined.

(** The spot formulas at the in-the-money scenario. *)
Lemma spot_formulas_witness :
  @time_to_expiry reference_library itm = Ok (168 / 365)
  /\ strike_price itm <> 0
  /\ (let t := 168 / 365 in
      let K := strike_price itm in
      let r := risk_free_cont itm in
      let v := volatility itm in
      let p := spot_price itm in
      let a := (ln (p / K) + t * (r + v ^ 2 / 2)) / (v * sqrt t) in
      let b := a - v * sqrt t in
      SpotPrice.price itm = Ok p
      /\ @SpotPrice.d1 reference_library itm = Ok a
      /\ @SpotPrice.d2 reference_library itm = Ok b
      /\ @SpotPrice.call reference_library itm
         = Ok (NormalDist.cdf a * p
               - NormalDist.cdf b * K * exp (- (r * t)))).
Proof.
  assert (HK : strike_price itm <> 0).
  { cbn [strike_price itm scenario]. lra. }
  split; [apply test_dates_expiry; reflexivity |].
  split; [exact HK |].
  exact (@spot_formulas reference_library itm (168 / 365)
           (test_dates_expiry itm eq_refl eq_refl) HK).
Defined.

(** Positive [call] and [put] at the in-the-money scenario. *)
Lemma forward_signs_witness :
  NormalDist.standard_normal (@cdf reference_library)
  /\ valid_contract reference_library itm (168 / 365)
  /\ exists c p,
       @ForwardPrice.call reference_library itm = Ok c
       /\ @ForwardPrice.put reference_library itm = Ok (Some p)
       /\ 0 < c
       /\ 0 < p.
Proof.
  split; [exact reference_normal |].
  split; [exact itm_valid |].
  destruct itm_valid as (HS & HK & Hv & Ht & Htp).
  exact (@forward_signs reference_library reference_normal
           itm (168 / 365) HS HK Ht Htp Hv).
Defined.

(** The ordering of [call] and [put] at the in-the-money scenario. *)
Lemma forward_ordering_witness :
  NormalDist.standard_normal (@cdf reference_library)
  /\ valid_contract reference_library itm (168 / 365)
  /\ (let S := spot_price itm in
      let K := strike_price itm in
      let D := exp (- (risk_free_cont itm * (168 / 365))) in
      exists c p,
        @ForwardPrice.call reference_library itm = Ok c
        /\ @ForwardPrice.put reference_library itm = Ok (Some p)
        /\ (S > K * D -> c > p)
        /\ (S < K * D -> p > c)
        /\ (S = K * D -> c = p)
        /\ (0 <= risk_free_int itm -> S > K -> c > p)
        /\ (-1 < risk_free_int itm <= 0 -> S < K -> p > c)
        /\ (S = K -> c - p = S * (1 - D))).
Proof.
  split; [exact reference_normal |].
  split; [exact itm_valid |].
  destruct itm_valid as (HS & HK & Hv & Ht & Htp).
  exact (@forward_ordering reference_library reference_normal
           itm (168 / 365) HS HK Ht Htp Hv).
Defined.

(** The derived quantities of the in-the-money scenario: 168 days. *)
Lemma derived_quantities_witness :
  @to_datetime reference_library (expiry_date itm) = Ok 738650%Z
  /\ @to_datetime reference_library (trade_date itm) = Ok 738482%Z
  /\ @time_to_expiry reference_library itm
     = Ok (IZR (738650 - 738482) / 365)
  /\ risk_free_cont itm = ln (1 + risk_free_int itm)
  /\ (forall o', trade_date o' = trade_date itm ->
                 expiry_date o' = expiry_date itm ->
                 @time_to_expiry reference_library o'
                 = @time_to_expiry reference_library itm)
  /\ (forall o', risk_free_int o' = risk_free_int itm ->
                 risk_free_cont o' = risk_free_cont itm).
Proof.
  split; [exact strptime_expiry |].
  split; [exact strptime_trade |].
  exact (@derived_quantities reference_library itm 738650 738482
           strptime_expiry strptime_trade).
Defined.

(** The two variants agree at the in-the-money scenario. *)
Lemma spot_forward_agree_witness :
  valid_contract reference_library itm (168 / 365)
  /\ exists a b c,
       @SpotPrice.d1 reference_library itm = Ok a
       /\ @ForwardPrice.d1 reference_library itm = Ok a
       /\ @SpotPrice.d2 reference_library itm = Ok b
       /\ @ForwardPrice.d2 reference_library itm = Ok b
       /\ @SpotPrice.call reference_library itm = Ok c
       /\ @ForwardPrice.call reference_library itm = Ok c.
Proof.
  split; [exact itm_valid |].
  destruct itm_valid as (HS & HK & Hv & Ht & Htp).
  exact (@spot_forward_agree reference_library
           itm (168 / 365) HS HK Hv Ht Htp).
Defined.

(** The in-the-money scenario with a dividend yield of three percent. *)
Lemma dividends_noninterference_witness :
  differ_only_in_dividends itm (with_dividends itm (3 / 100))
  /\ same_outputs (@SpotPrice.model reference_library)
       itm (with_dividends itm (3 / 100))
  /\ same_outputs (@ForwardPrice.model reference_library)
       itm (with_dividends itm (3 / 100))
  /\ @time_to_expiry reference_library itm
     = @time_to_expiry reference_library (with_dividends itm (3 / 100))
  /\ risk_free_cont itm = risk_free_cont (with_dividends itm (3 / 100)).
Proof.
  assert (H : differ_only_in_dividends itm (with_dividends itm (3 / 100))).
  { unfold differ_only_in_dividends. repeat split; reflexivity. }
  split; [exact H |].
  exact (@dividends_noninterference reference_library
           itm (with_dividends itm (3 / 100)) H).
Defined.

(** ** The signs in double precision *)

Section DoublesFacts.
Context {L : Doubles.Library}.
Hypothesis conf : Doubles.conforming L.
Hypothesis dates : Doubles.scenario_dates L.

Lemma doubles_time_to_expiry (o : Doubles.VanillaOption) :
  Doubles.trade_date o = "23.11.2022"%string ->
  Doubles.expiry_date o = "10.05.2023"%string ->
  Doubles.time_to_expiry o = Doubles.Ok (168 / 365)%float.
Proof.
  intros Ht He. destruct dates as (d & Hd & Hx).
  unfold Doubles.time_to_expiry. rewrite Ht, He, Hx, Hd.
  cbn [Doubles.bind].
  replace (d + 168 - d)%Z with 168%Z by lia. reflexivity.
Qed.

Lemma doubles_zero_rate (o : Doubles.VanillaOption) :
  Doubles.risk_free_int o = 0%float ->
  Doubles.risk_free_cont o = 0%float.
Proof.
  intro H. unfold Doubles.risk_free_cont. rewrite H.
  change (1 + 0)%float with 1%float. apply (Doubles.log_one L conf).
Qed.

Lemma doubles_zero_rate_price (o : Doubles.VanillaOption) :
  Doubles.trade_date o = "23.11.2022"%string ->
  Doubles.expiry_date o = "10.05.2023"%string ->
  Doubles.risk_free_int o = 0%float ->
  Doubles.ForwardPrice.price o = Doubles.Ok (Doubles.spot_price o * 1)%float.
Proof.
  intros Ht He Hr. unfold Doubles.ForwardPrice.price.
  rewrite (doubles_time_to_expiry o Ht He), (doubles_zero_rate o Hr).
  cbn [Doubles.bind].
  change (0 * (168 / 365))%float with 0%float.
  rewrite (Doubles.exp_zero L conf). reflexivity.
Qed.

(** The quotient of price and strike underflows to zero: [d1] and [d2] are
  minus infinity. *)
Lemma doubles_deep_otm_d1 :
  Doubles.ForwardPrice.d1 Doubles.deep_otm = Doubles.Ok neg_infinity.
Proof.
  unfold Doubles.ForwardPrice.d1.
  rewrite (doubles_zero_rate_price Doubles.deep_otm eq_refl eq_refl eq_refl),
    (doubles_time_to_expiry Doubles.deep_otm eq_refl eq_refl).
  cbn [Doubles.bind Doubles.volatility Doubles.deep_otm Doubles.spot_price
         Doubles.strike_price].
  rewrite (Doubles.pow_one L conf). cbn [Doubles.bind].
  change (Doubles.tiny * 1 / Doubles.huge)%float with 0%float.
  rewrite (Doubles.log_zero L conf). reflexivity.
Qed.

Lemma doubles_deep_otm_d2 :
  Doubles.ForwardPrice.d2 Doubles.deep_otm = Doubles.Ok neg_infinity.
Proof.
  unfold Doubles.ForwardPrice.d2.
  rewrite doubles_deep_otm_d1,
    (doubles_time_to_expiry Doubles.deep_otm eq_refl eq_refl).
  reflexivity.
Qed.

Lemma doubles_deep_otm_call :
  Doubles.ForwardPrice.call Doubles.deep_otm = Doubles.Ok 0%float.
Proof.
  unfold Doubles.ForwardPrice.call.
  rewrite doubles_deep_otm_d1, doubles_deep_otm_d2,
    (doubles_zero_rate_price Doubles.deep_otm eq_refl eq_refl eq_refl),
    (doubles_time_to_expiry Doubles.deep_otm eq_refl eq_refl),
    (doubles_zero_rate Doubles.deep_otm eq_refl).
  cbn [Doubles.bind Doubles.deep_otm Doubles.spot_price Doubles.strike_price].
  rewrite (Doubles.cdf_neg_infinity L conf).
  change (- 0 * (168 / 365))%float with (- 0)%float.
  rewrite (Doubles.exp_neg_zero L conf). reflexivity.
Qed.

(** In the mirror contract the quotient overflows: [d1] and [d2] are plus
  infinity. *)
Lemma doubles_deep_itm_d1 :
  Doubles.ForwardPrice.d1 Doubles.deep_itm = Doubles.Ok infinity.
Proof.
  unfold Doubles.ForwardPrice.d1.
  rewrite (doubles_zero_rate_price Doubles.deep_itm eq_refl eq_refl eq_refl),
    (doubles_time_to_expiry Doubles.deep_itm eq_refl eq_refl).
  cbn [Doubles.bind Doubles.volatility Doubles.deep_itm Doubles.spot_price
         Doubles.strike_price].
  rewrite (Doubles.pow_one L conf). cbn [Doubles.bind].
  change (Doubles.huge * 1 / Doubles.tiny)%float with infinity.
  rewrite (Doubles.log_infinity L conf). reflexivity.
Qed.

Lemma doubles_deep_itm_d2 :
  Doubles.ForwardPrice.d2 Doubles.deep_itm = Doubles.Ok infinity.
Proof.
  unfold Doubles.ForwardPrice.d2.
  rewrite doubles_deep_itm_d1,
    (doubles_time_to_expiry Doubles.deep_itm eq_refl eq_refl).
  reflexivity.
Qed.

Lemma doubles_deep_itm_put :
  Doubles.ForwardPrice.put Doubles.deep_itm = Doubles.Ok 0%float.
Proof.
  unfold Doubles.ForwardPrice.put.
  rewrite doubles_deep_itm_d1, doubles_deep_itm_d2,
    (doubles_zero_rate_price Doubles.deep_itm eq_refl eq_refl eq_refl),
    (doubles_time_to_expiry Doubles.deep_itm eq_refl eq_refl),
    (doubles_zero_rate Doubles.deep_itm eq_refl).
  cbn [Doubles.bind Doubles.deep_itm Doubles.spot_price Doubles.strike_price].
  change (- infinity)%float with neg_infinity.
  rewrite (Doubles.cdf_neg_infinity L conf).
  change (- 0 * (168 / 365))%float with (- 0)%float.
  rewrite (Doubles.exp_neg_zero L conf). reflexivity.
Qed.

Lemma doubles_deep_valid (o : Doubles.VanillaOption) :
  Doubles.trade_date o = "23.11.2022"%string ->
  Doubles.expiry_date o = "10.05.2023"%string ->
  Doubles.gt (Doubles.spot_price o) 0 ->
  Doubles.gt (Doubles.strike_price o) 0 ->
  Doubles.gt (Doubles.volatility o) 0 ->
  Doubles.valid_contract L o (168 / 365)%float.
Proof.
  intros Ht He HS HK Hv. unfold Doubles.valid_contract.
  split; [exact HS |]. split; [exact HK |]. split; [exact Hv |].
  split; [apply doubles_time_to_expiry; assumption | reflexivity].
Qed.

End DoublesFacts.

(** With every numeric library that gives the standard values at zero, one
  and the infinities, the contract with spot 1e-200 and strike 1e200 (rate
  0, volatility 1, the dates of the scenarios) meets the conditions and
  [call] returns exactly 0.0; the mirror contract meets them and [put]
  returns exactly 0.0. *)
Lemma doubles_signs_at_the_extremes (L : Doubles.Library) :
  Doubles.conforming L -> Doubles.scenario_dates L ->
  (Doubles.valid_contract L Doubles.deep_otm (168 / 365)%float
   /\ Doubles.ForwardPrice.call Doubles.deep_otm = Doubles.Ok 0%float)
  /\ (Doubles.valid_contract L Doubles.deep_itm (168 / 365)%float
      /\ Doubles.ForwardPrice.put Doubles.deep_itm = Doubles.Ok 0%float).
Proof.
  intros conf dates.
  split.
  - split; [apply (doubles_deep_valid dates); reflexivity |].
    exact (doubles_deep_otm_call conf dates).
  - split; [apply (doubles_deep_valid dates); reflexivity |].
    exact (doubles_deep_itm_put conf dates).
Qed.

Lemma doubles_skeleton_conforming :
  Doubles.conforming doubles_skeleton
  /\ Doubles.scenario_dates doubles_skeleton.
Proof.
  split.
  - constructor; reflexivity.
  - exists 738482%Z. split; vm_compute; reflexivity.
Qed.

(** C5 as stated fails on the code's numbers: with no numeric library that
  gives the standard values do the sign invariants hold, since [call] of
  the contract with spot 1e-200 and strike 1e200 is 0.0, which is not
  above 0. *)
Lemma forward_signs_fail_in_doubles :
  ~ exists L : Doubles.Library,
      Doubles.conforming L /\ Doubles.scenario_dates L
      /\ Doubles.signs_hold L.
Proof.
  intros (L & conf & dates & H).
  destruct (doubles_signs_at_the_extremes L conf dates) as [[V E] _].
  destruct (H _ _ V) as (c & p & Hc & _ & Hpos & _).
  rewrite E in Hc. injection Hc as <-.
  unfold Doubles.gt in Hpos. discriminate.
Qed.

(** ** Further properties of the code: failures and derived quantities *)

Section Failures.
Context {L : Library}.

(** X2. The spot variant fails on the strike before the dates: when the
  strike is zero, [d1], [d2] and [call] raise [ZeroDivisionError], whatever
  the dates are. *)
Theorem spot_zero_strike_raises (o : VanillaOption) :
  strike_price o = 0 ->
  SpotPrice.d1 o = Raise ZeroDivisionError
  /\ SpotPrice.d2 o = Raise ZeroDivisionError
  /\ SpotPrice.call o = Raise ZeroDivisionError.
Proof.
  intro H. pose proof (spot_d1_zero_strike o H) as E.
  split; [exact E |].
  unfold SpotPrice.d2, SpotPrice.call. rewrite E.
  split; reflexivity.
Qed.

(** X3. The sign of [time_to_expiry] is the order of the two dates: when
  both parse it returns a number that is positive exactly when the expiry
  date is after the trade date, zero when they are the same day, and
  negative when the expiry date is earlier. *)
Theorem time_to_expiry_sign (o : VanillaOption) (expiry trade : Z) :
  to_datetime (expiry_date o) = Ok expiry ->
  to_datetime (trade_date o) = Ok trade ->
  exists t,
    time_to_expiry o = Ok t
    /\ (0 < t <-> (trade < expiry)%Z)
    /\ (t = 0 <-> trade = expiry)
    /\ (t < 0 <-> (expiry < trade)%Z).
Proof.
  intros He Hd. exists (IZR (expiry - trade) / 365).
  split; [unfold time_to_expiry; rewrite He, Hd; reflexivity |].
  assert (S1 : forall z : Z, 0 < IZR z / 365 <-> (0 < z)%Z).
  { intro z. split; intro H.
    - apply lt_IZR. lra.
    - apply IZR_lt in H. lra. }
  assert (S2 : forall z : Z, IZR z / 365 = 0 <-> z = 0%Z).
  { intro z. split; intro H.
    - apply eq_IZR. lra.
    - subst z. lra. }
  assert (S3 : forall z : Z, IZR z / 365 < 0 <-> (z < 0)%Z).
  { intro z. split; intro H.
    - apply lt_IZR. lra.
    - apply IZR_lt in H. lra. }
  rewrite S1, S2, S3. repeat split; lia.
Qed.

End Failures.

(** ** Further properties of the code: the prices *)

Section Bounds.
Variable Phi : R -> R.
Hypothesis Phi_normal : NormalDist.standard_normal Phi.

Lemma Phi_pos (x : R) : 0 < Phi x.
Proof.
  destruct Phi_normal as [[c [Hc Hd]] [Hl Hr]].
  exact (NormalDist.normal_pos Phi c Hc Hd Hl x).
Qed.

Lemma Phi_lt_1 (x : R) : Phi x < 1.
Proof.
  destruct Phi_normal as [[c [Hc Hd]] [Hl Hr]].
  exact (NormalDist.normal_lt_1 Phi c Hc Hd Hr x).
Qed.

Lemma bounds_core (S K r v t : R) :
  0 < S -> 0 < K -> 0 < v -> 0 < t ->
  let p := Formula.forward_price S r t in
  let a := Formula.forward_d1 p K v t in
  let b := Formula.d2 a v t in
  let c := Formula.forward_call Phi a b p K r t in
  let q := Formula.forward_put Phi a b p K r t in
  let KD := K * Formula.discount r t in
  S - KD < c < S /\ KD - S < q < KD.
Proof.
  intros HS HK Hv Ht p a b c q KD.
  pose proof (forward_price_pos S r t HS) as Hp. fold p in Hp.
  pose proof (discount_pos r t) as HD.
  destruct (sign_core Phi Phi_normal p K v t Hp HK Hv Ht) as [Hc Hq].
  fold a b in Hc, Hq.
  pose proof (parity_core Phi Phi_normal a b S K r t) as E.
  cbv zeta in E. fold p c q in E. unfold Formula.parity_rhs in E. fold KD in E.
  assert (Hcpos : 0 < c).
  { unfold c, Formula.forward_call. apply Rmult_lt_0_compat; lra. }
  assert (Hqpos : 0 < q).
  { unfold q, Formula.forward_put. apply Rmult_lt_0_compat; lra. }
  assert (HpD : p * Formula.discount r t = S)
    by apply forward_price_discount.
  assert (Hcup : c < S).
  { unfold c, Formula.forward_call. rewrite <- HpD.
    pose proof (Phi_lt_1 a) as H1. pose proof (Phi_pos b) as H2.
    apply Rmult_lt_compat_r; [exact HD |].
    assert (0 < Phi b * K) by (apply Rmult_lt_0_compat; assumption).
    assert (Phi a * p < p) by nra. lra. }
  lra.
Qed.

End Bounds.

Lemma distance_sign_core (p K v t : R) :
  0 < v -> 0 < t ->
  let a := Formula.forward_d1 p K v t in
  let b := Formula.d2 a v t in
  b < a
  /\ (0 < a <-> - (v ^ 2 * t / 2) < ln (p / K))
  /\ (0 < b <-> v ^ 2 * t / 2 < ln (p / K)).
Proof.
  intros Hv Ht a b.
  set (s := v * sqrt t).
  assert (Hs : 0 < s).
  { apply Rmult_lt_0_compat; [exact Hv | apply sqrt_lt_R0; exact Ht]. }
  assert (Hss : s * s = v ^ 2 * t).
  { unfold s. replace (v * sqrt t * (v * sqrt t))
      with (v ^ 2 * (sqrt t * sqrt t)) by ring.
    rewrite sqrt_sqrt by lra. reflexivity. }
  assert (E : a * s = ln (p / K) + v ^ 2 * t / 2).
  { unfold a, Formula.forward_d1. fold s. field. lra. }
  assert (Hb : b = a - s) by reflexivity.
  split; [lra |].
  split; split; intro H.
  - assert (0 < a * s) by (apply Rmult_lt_0_compat; assumption). lra.
  - destruct (Rlt_le_dec 0 a) as [Ha | Ha]; [exact Ha | exfalso].
    assert (a * s <= 0) by nra. lra.
  - assert (s * s < a * s) by (apply Rmult_lt_compat_r; lra). lra.
  - destruct (Rlt_le_dec 0 b) as [Ha | Ha]; [exact Ha | exfalso].
    assert (a * s <= s * s) by (apply Rmult_le_compat_r; lra). lra.
Qed.

Lemma scale_forward_d1 (k S K r v t : R) :
  k <> 0 -> K <> 0 ->
  Formula.forward_d1 (Formula.forward_price (k * S) r t) (k * K) v t
  = Formula.forward_d1 (Formula.forward_price S r t) K v t.
Proof.
  intros Hk HK. unfold Formula.forward_d1, Formula.forward_price.
  replace (k * S * exp (r * t) / (k * K)) with (S * exp (r * t) / K)
    by (field; split; assumption).
  reflexivity.
Qed.

Lemma scale_spot_d1 (k S K r v t : R) :
  k <> 0 -> K <> 0 ->
  Formula.spot_d1 (k * S) (k * K) r v t = Formula.spot_d1 S K r v t.
Proof.
  intros Hk HK. unfold Formula.spot_d1.
  replace (k * S / (k * K)) with (S / K) by (field; split; assumption).
  reflexivity.
Qed.

Section Prices.
Context {L : Library}.

(** X7. The prices are homogeneous in the unit of account: multiplying
  spot and strike by the same [k > 0] leaves [d1] and [d2] of both
  variants unchanged and multiplies [call] of both variants and [put] of
  the forward variant by [k]. *)
Theorem prices_scale (o : VanillaOption) (k t : R) :
  0 < k -> strike_price o <> 0 -> time_to_expiry o = Ok t ->
  exists a b c p a' b' c',
    ForwardPrice.d1 o = Ok a
    /\ ForwardPrice.d1 (scale_prices k o) = Ok a
    /\ ForwardPrice.d2 o = Ok b
    /\ ForwardPrice.d2 (scale_prices k o) = Ok b
    /\ ForwardPrice.call o = Ok c
    /\ ForwardPrice.call (scale_prices k o) = Ok (k * c)
    /\ ForwardPrice.put o = Ok (Some p)
    /\ ForwardPrice.put (scale_prices k o) = Ok (Some (k * p))
    /\ SpotPrice.d1 o = Ok a'
    /\ SpotPrice.d1 (scale_prices k o) = Ok a'
    /\ SpotPrice.d2 o = Ok b'
    /\ SpotPrice.d2 (scale_prices k o) = Ok b'
    /\ SpotPrice.call o = Ok c'
    /\ SpotPrice.call (scale_prices k o) = Ok (k * c').
Proof.
  intros Hk HK Ht.
  assert (Hk0 : k <> 0) by lra.
  assert (Ht' : time_to_expiry (scale_prices k o) = Ok t) by exact Ht.
  assert (HK' : strike_price (scale_prices k o) <> 0).
  { cbn [strike_price scale_prices]. apply Rmult_integral_contrapositive.
    split; assumption. }
  pose proof (scale_forward_d1 k (spot_price o) (strike_price o)
                (risk_free_cont o) (volatility o) t Hk0 HK) as E.
  pose proof (scale_spot_d1 k (spot_price o) (strike_price o)
                (risk_free_cont o) (volatility o) t Hk0 HK) as E'.
  do 7 eexists.
  split; [apply (forward_d1_eval o t Ht) |].
  split; [rewrite (forward_d1_eval _ t Ht'); f_equal; exact E |].
  split; [apply (forward_d2_eval o t Ht) |].
  split.
  { rewrite (forward_d2_eval _ t Ht'). f_equal.
    cbn [spot_price strike_price volatility scale_prices].
    change (risk_free_cont (scale_prices k o)) with (risk_free_cont o).
    rewrite E. reflexivity. }
  split; [apply (forward_call_eval o t Ht) |].
  split.
  { rewrite (forward_call_eval _ t Ht'). f_equal.
    cbn [spot_price strike_price volatility scale_prices].
    change (risk_free_cont (scale_prices k o)) with (risk_free_cont o).
    rewrite E. unfold Formula.forward_call, Formula.forward_price. ring. }
  split; [apply (forward_put_eval o t Ht) |].
  split.
  { rewrite (forward_put_eval _ t Ht'). do 2 f_equal.
    cbn [spot_price strike_price volatility scale_prices].
    change (risk_free_cont (scale_prices k o)) with (risk_free_cont o).
    rewrite E. unfold Formula.forward_put, Formula.forward_price. ring. }
  split; [apply (spot_d1_eval o t Ht HK) |].
  split; [rewrite (spot_d1_eval _ t Ht' HK'); f_equal; exact E' |].
  split; [apply (spot_d2_eval o t Ht HK) |].
  split.
  { rewrite (spot_d2_eval _ t Ht' HK'). f_equal.
    cbn [spot_price strike_price volatility scale_prices].
    change (risk_free_cont (scale_prices k o)) with (risk_free_cont o).
    rewrite E'. reflexivity. }
  split; [apply (spot_call_eval o t Ht HK) |].
  rewrite (spot_call_eval _ t Ht' HK'). f_equal.
  cbn [spot_price strike_price volatility scale_prices].
  change (risk_free_cont (scale_prices k o)) with (risk_free_cont o).
  rewrite E'. unfold Formula.spot_call. ring.
Qed.

End Prices.

(** ** Further properties of the code: the tests *)

Lemma isclose_refl (a atol : R) : 0 <= atol -> Tests.isclose a a atol.
Proof.
  intro H. unfold Tests.isclose, Tests.rtol.
  unfold Rminus. rewrite Rplus_opp_r, Rabs_R0.
  pose proof (Rabs_pos a). lra.
Qed.

Lemma ln_above (p K x : R) :
  0 < p -> 0 < K -> (x < ln (p / K) <-> K * exp x < p).
Proof.
  intros Hp HK.
  assert (Hq : 0 < p / K) by (apply Rdiv_lt_0_compat; assumption).
  split; intro H.
  - apply exp_increasing in H. rewrite exp_ln in H by exact Hq.
    apply (Rmult_lt_compat_l K) in H; [| exact HK].
    replace (K * (p / K)) with p in H by (field; lra). exact H.
  - apply exp_lt_inv. rewrite exp_ln by exact Hq.
    apply Rmult_lt_reg_l with K; [exact HK |].
    replace (K * (p / K)) with p by (field; lra). exact H.
Qed.

Section TestBodies.
Context {L : Library}.
Hypothesis cdf_normal : NormalDist.standard_normal cdf.
Variables (o : VanillaOption) (t : R).
Hypothesis spot_pos : 0 < spot_price o.
Hypothesis strike_pos : 0 < strike_price o.
Hypothesis vol_pos : 0 < volatility o.
Hypothesis dates_parse : time_to_expiry o = Ok t.
Hypothesis t_pos : 0 < t.

Let S := spot_price o.
Let K := strike_price o.
Let r := risk_free_cont o.
Let v := volatility o.
Let p := Formula.forward_price S r t.
Let a := Formula.forward_d1 p K v t.
Let b := Formula.d2 a v t.
Let c := Formula.forward_call cdf a b p K r t.
Let q := Formula.forward_put cdf a b p K r t.
Let KD := K * Formula.discount r t.

Lemma right_part_parity_eval : Tests.right_part_parity o = Ok (S - KD).
Proof.
  unfold Tests.right_part_parity. rewrite dates_parse. cbn [bind].
  rewrite discount_code. reflexivity.
Qed.

Lemma body_facts :
  0 < c /\ 0 < q /\ c - q = S - KD /\ b < a
  /\ (0 < b <-> K * exp (v ^ 2 * t / 2) < p)
  /\ (KD < S <-> K < p).
Proof.
  pose proof (forward_price_pos S r t spot_pos) as Hp. fold p in Hp.
  pose proof (discount_pos r t) as HD.
  destruct (bounds_core cdf cdf_normal S K r v t
              spot_pos strike_pos vol_pos t_pos) as [Hc Hq].
  cbv zeta in Hc, Hq. fold p a b c q KD in Hc, Hq.
  pose proof (parity_core cdf cdf_normal a b S K r t) as E.
  cbv zeta in E. fold p c q in E. unfold Formula.parity_rhs in E.
  fold KD in E.
  destruct (distance_sign_core p K v t vol_pos t_pos) as (Hba & _ & Hb).
  fold a b in Hba, Hb.
  assert (HpD : p * Formula.discount r t = S)
    by apply forward_price_discount.
  split; [lra |]. split; [lra |]. split; [exact E |]. split; [exact Hba |].
  split.
  - rewrite Hb. apply ln_above; assumption.
  - unfold KD. rewrite <- HpD. split; intro H.
    + apply Rmult_lt_reg_r with (Formula.discount r t); assumption.
    + apply Rmult_lt_compat_r; assumption.
Qed.

Lemma call_in_the_money_iff :
  Tests.passes (Tests.call_in_the_money o)
  <-> K * exp (v ^ 2 * t / 2) < p.
Proof.
  destruct body_facts as (Hc & Hq & E & Hba & Hb & HS).
  unfold Tests.call_in_the_money.
  rewrite (forward_call_eval o t dates_parse),
    (forward_put_eval o t dates_parse), right_part_parity_eval,
    (forward_d1_eval o t dates_parse), (forward_d2_eval o t dates_parse).
  cbn [bind Tests.passes]. fold S K r v p a b c q.
  split.
  - intros (_ & _ & _ & H & _). apply Hb. exact H.
  - intro H. assert (Hb0 : 0 < b) by (apply Hb; exact H).
    assert (HK : 0 < K) by exact strike_pos.
    assert (Hv : 0 < v) by exact vol_pos.
    assert (HKp : K < p).
    { apply Rle_lt_trans with (K * exp (v ^ 2 * t / 2)); [| exact H].
      rewrite <- (Rmult_1_r K) at 1.
      apply Rmult_le_compat_l; [lra |].
      rewrite <- exp_0.
      destruct (Req_dec (v ^ 2 * t / 2) 0) as [-> | N]; [lra |].
      left. apply exp_increasing.
      assert (0 < v ^ 2 * t) by (apply Rmult_lt_0_compat; [nra | exact t_pos]).
      lra. }
    apply HS in HKp.
    repeat split; try lra.
    rewrite E. apply isclose_refl. unfold atol. lra.
Qed.

Lemma at_the_money_passes : Tests.passes (Tests.at_the_money o).
Proof.
  destruct body_facts as (Hc & Hq & E & _).
  unfold Tests.at_the_money.
  rewrite (forward_call_eval o t dates_parse),
    (forward_put_eval o t dates_parse), right_part_parity_eval.
  cbn [bind Tests.passes]. fold S K r v p a b c q.
  repeat split; try lra.
  rewrite E. apply isclose_refl. unfold atol. lra.
Qed.

Lemma call_out_of_the_money_iff :
  Tests.passes (Tests.call_out_of_the_money o) <-> S < KD.
Proof.
  destruct body_facts as (Hc & Hq & E & _).
  unfold Tests.call_out_of_the_money.
  rewrite (forward_call_eval o t dates_parse),
    (forward_put_eval o t dates_parse), right_part_parity_eval.
  cbn [bind Tests.passes]. fold S K r v p a b c q.
  split.
  - intros (_ & _ & H & _). lra.
  - intro H. repeat split; try lra.
    rewrite E. apply isclose_refl. unfold atol. lra.
Qed.

Lemma end_to_end_step_iff :
  Tests.passes (Tests.end_to_end_step o)
  <-> (K < S -> KD < S) /\ (S < K -> S < KD).
Proof.
  destruct body_facts as (Hc & Hq & E & _).
  unfold Tests.end_to_end_step.
  rewrite (forward_call_eval o t dates_parse),
    (forward_put_eval o t dates_parse).
  cbn [bind]. fold S K r v p a b c q.
  destruct (Req_dec_T S K) as [HSK | HSK].
  - rewrite right_part_parity_eval. cbn [bind Tests.passes].
    split.
    + intros _. split; intro; lra.
    + intros _. repeat split; try lra.
      rewrite E. apply isclose_refl. unfold atol. lra.
  - destruct (Rlt_dec K S) as [H1 | H1]; cbn [Tests.passes].
    + split.
      * intros (_ & _ & H). split; intro; lra.
      * intros [H _]. specialize (H H1). repeat split; lra.
    + destruct (Rlt_dec S K) as [H2 | H2]; cbn [Tests.passes].
      * split.
        -- intros (_ & _ & H). split; intro; lra.
        -- intros [_ H]. specialize (H H2). repeat split; lra.
      * exfalso. lra.
Qed.

End TestBodies.

Lemma end_to_end_Forall {L : Library} (options : list VanillaOption) :
  Tests.passes (Tests.end_to_end options)
  <-> Forall (fun o => Tests.passes (Tests.end_to_end_step o)) options.
Proof.
  induction options as [| o rest IH]; cbn [Tests.end_to_end].
  - split; [intros _; constructor | intros _; exact I].
  - rewrite Forall_cons_iff, <- IH.
    destruct (Tests.end_to_end_step o) as [P | e]; cbn [bind Tests.passes];
      [| tauto].
    destruct (Tests.end_to_end rest) as [Q | e]; cbn [bind Tests.passes];
      tauto.
Qed.

Lemma scenario_discount_lower :
  997 / 1000 < Formula.discount (ln (1 + 5 / 1000)) (168 / 365).
Proof.
  unfold Formula.discount.
  pose proof (ln_upper (1 + 5 / 1000)) as Hu.
  assert (Hr : ln (1 + 5 / 1000) <= 5 / 1000) by lra.
  set (x := - (ln (1 + 5 / 1000) * (168 / 365))).
  assert (Hx : - (3 / 1000) < x) by (unfold x; lra).
  pose proof (exp_ineq1_le x). lra.
Qed.

Lemma scenario_growth :
  1 < exp (ln (1 + 5 / 1000) * (168 / 365)).
Proof.
  rewrite <- exp_0 at 1. apply exp_increasing.
  pose proof (ln_lower (1 + 5 / 1000)). lra.
Qed.

Lemma scenario_variance :
  exp ((3 / 10) ^ 2 * (168 / 365) / 2) < 11 / 10.
Proof.
  set (x := (3 / 10) ^ 2 * (168 / 365) / 2).
  assert (Hx : 0 < x < 3 / 100) by (unfold x; lra).
  pose proof (exp_ineq1_le (- x)) as H.
  rewrite exp_Ropp in H.
  pose proof (exp_pos x) as Hp.
  assert (H1 : (1 - x) * exp x <= 1).
  { apply Rmult_le_reg_r with (/ exp x).
    - apply Rinv_0_lt_compat. exact Hp.
    - rewrite Rmult_assoc, Rinv_r by lra. lra. }
  nra.
Qed.

Lemma scenario_valid (spot strike : R) :
  0 < spot -> 0 < strike ->
  valid_contract reference_library (scenario spot strike) (168 / 365).
Proof.
  intros HS HK. unfold valid_contract.
  cbn [spot_price strike_price volatility scenario].
  split; [exact HS |]. split; [exact HK |]. split; [lra |].
  split; [apply test_dates_expiry; reflexivity | lra].
Qed.

Section TestTheorems.
Context {L : Library}.
Hypothesis cdf_normal : NormalDist.standard_normal cdf.

(** X12. The tests pass: when the two dates of the scenarios parse 168
  days apart, the assertions of [test_call_in_the_money] hold on the
  scenario [itm], those of [test_at_the_money] on [atm], those of
  [test_call_out_of_the_money] on [otm], and the loop of
  [test_end_to_end] passes over the three scenarios. *)
Theorem tests_pass_on_scenarios (expiry trade : Z) :
  to_datetime "10.05.2023" = Ok expiry ->
  to_datetime "23.11.2022" = Ok trade ->
  (expiry - trade = 168)%Z ->
  Tests.passes (Tests.call_in_the_money itm)
  /\ Tests.passes (Tests.at_the_money atm)
  /\ Tests.passes (Tests.call_out_of_the_money otm)
  /\ Tests.passes (Tests.end_to_end Tests.scenarios).
Proof.
  intros He Hd H168.
  assert (V : forall spot strike, 0 < spot -> 0 < strike ->
                valid_contract L (scenario spot strike) (168 / 365)).
  { intros spot strike HS HK. unfold valid_contract.
    cbn [spot_price strike_price volatility scenario].
    split; [exact HS |]. split; [exact HK |]. split; [lra |].
    split; [| lra].
    unfold time_to_expiry. cbn [expiry_date trade_date scenario].
    rewrite He, Hd. cbn [bind]. rewrite H168. reflexivity. }
  pose proof scenario_growth as G. pose proof scenario_variance as W.
  pose proof scenario_discount as D1.
  pose proof scenario_discount_lower as D2.
  split; [| split; [| split]].
  - destruct (V 110 100) as (HS & HK & Hv & Ht & Htp); try lra.
    apply (call_in_the_money_iff cdf_normal _ _ HS HK Hv Ht Htp).
    cbn [spot_price strike_price volatility scenario].
    change (risk_free_cont (scenario 110 100)) with (ln (1 + 5 / 1000)).
    unfold Formula.forward_price. lra.
  - destruct (V 100 100) as (HS & HK & Hv & Ht & Htp); try lra.
    exact (at_the_money_passes cdf_normal _ _ HS HK Hv Ht Htp).
  - destruct (V 100 110) as (HS & HK & Hv & Ht & Htp); try lra.
    apply (call_out_of_the_money_iff cdf_normal _ _ HS HK Hv Ht Htp).
    cbn [spot_price strike_price scenario].
    change (risk_free_cont (scenario 100 110)) with (ln (1 + 5 / 1000)).
    lra.
  - apply (proj2 (end_to_end_Forall Tests.scenarios)).
    unfold Tests.scenarios, itm, atm, otm.
    apply Forall_cons; [| apply Forall_cons; [| apply Forall_cons;
      [| apply Forall_nil]]].
    + destruct (V 110 100) as (HS & HK & Hv & Ht & Htp); try lra.
      apply (end_to_end_step_iff cdf_normal _ _ HS HK Hv Ht Htp).
      cbn [spot_price strike_price scenario].
      change (risk_free_cont (scenario 110 100)) with (ln (1 + 5 / 1000)).
      split; intro; lra.
    + destruct (V 100 100) as (HS & HK & Hv & Ht & Htp); try lra.
      apply (end_to_end_step_iff cdf_normal _ _ HS HK Hv Ht Htp).
      cbn [spot_price strike_price scenario].
      split; intro; lra.
    + destruct (V 100 110) as (HS & HK & Hv & Ht & Htp); try lra.
      apply (end_to_end_step_iff cdf_normal _ _ HS HK Hv Ht Htp).
      cbn [spot_price strike_price scenario].
      change (risk_free_cont (scenario 100 110)) with (ln (1 + 5 / 1000)).
      split; intro; lra.
Qed.

End TestTheorems.

(** ** The further properties at concrete contracts *)

(** A strike of zero with dates that do not parse. *)
Lemma spot_zero_strike_raises_witness :
  strike_price zero_strike_unparsed = 0
  /\ @time_to_expiry reference_library zero_strike_unparsed
     = Raise ValueError
  /\ @SpotPrice.d1 reference_library zero_strike_unparsed
     = Raise ZeroDivisionError
  /\ @SpotPrice.d2 reference_library zero_strike_unparsed
     = Raise ZeroDivisionError
  /\ @SpotPrice.call reference_library zero_strike_unparsed
     = Raise ZeroDivisionError.
Proof.
  split; [reflexivity |].
  split; [vm_compute; reflexivity |].
  exact (@spot_zero_strike_raises reference_library zero_strike_unparsed
           eq_refl).
Defined.

(** The sign of the time to expiry at the in-the-money scenario. *)
Lemma time_to_expiry_sign_witness :
  @to_datetime reference_library (expiry_date itm) = Ok 738650%Z
  /\ @to_datetime reference_library (trade_date itm) = Ok 738482%Z
  /\ exists t,
       @time_to_expiry reference_library itm = Ok t
       /\ (0 < t <-> (738482 < 738650)%Z)
       /\ (t = 0 <-> 738482%Z = 738650%Z)
       /\ (t < 0 <-> (738650 < 738482)%Z).
Proof.
  split; [exact strptime_expiry |].
  split; [exact strptime_trade |].
  exact (@time_to_expiry_sign reference_library itm 738650 738482
           strptime_expiry strptime_trade).
Defined.

(** The in-the-money scenario with spot and strike doubled. *)
Lemma prices_scale_witness :
  0 < 2
  /\ strike_price itm <> 0
  /\ @time_to_expiry reference_library itm = Ok (168 / 365)
  /\ exists a b c p a' b' c',
       @ForwardPrice.d1 reference_library itm = Ok a
       /\ @ForwardPrice.d1 reference_library (scale_prices 2 itm) = Ok a
       /\ @ForwardPrice.d2 reference_library itm = Ok b
       /\ @ForwardPrice.d2 reference_library (scale_prices 2 itm) = Ok b
       /\ @ForwardPrice.call reference_library itm = Ok c
       /\ @ForwardPrice.call reference_library (scale_prices 2 itm)
          = Ok (2 * c)
       /\ @ForwardPrice.put reference_library itm = Ok (Some p)
       /\ @ForwardPrice.put reference_library (scale_prices 2 itm)
          = Ok (Some (2 * p))
       /\ @SpotPrice.d1 reference_library itm = Ok a'
       /\ @SpotPrice.d1 reference_library (scale_prices 2 itm) = Ok a'
       /\ @SpotPrice.d2 reference_library itm = Ok b'
       /\ @SpotPrice.d2 reference_library (scale_prices 2 itm) = Ok b'
       /\ @SpotPrice.call reference_library itm = Ok c'
       /\ @SpotPrice.call reference_library (scale_prices 2 itm)
          = Ok (2 * c').
Proof.
  destruct itm_valid as (HS & HK & Hv & Ht & Htp).
  assert (H2 : 0 < 2) by lra.
  assert (HK0 : strike_price itm <> 0) by lra.
  split; [exact H2 |]. split; [exact HK0 |]. split; [exact Ht |].
  exact (@prices_scale reference_library itm 2 (168 / 365) H2 HK0 Ht).
Defined.

(** The tests with the reference library. *)
Lemma tests_pass_on_scenarios_witness :
  NormalDist.standard_normal (@cdf reference_library)
  /\ @to_datetime reference_library "10.05.2023" = Ok 738650%Z
  /\ @to_datetime reference_library "23.11.2022" = Ok 738482%Z
  /\ (738650 - 738482 = 168)%Z
  /\ Tests.passes (@Tests.call_in_the_money reference_library itm)
  /\ Tests.passes (@Tests.at_the_money reference_library atm)
  /\ Tests.passes (@Tests.call_out_of_the_money reference_library otm)
  /\ Tests.passes (@Tests.end_to_end reference_library Tests.scenarios).
Proof.
  split; [exact reference_normal |].
  split; [exact strptime_expiry |].
  split; [exact strptime_trade |].
  split; [reflexivity |].
  exact (@tests_pass_on_scenarios reference_library reference_normal
           738650 738482 strptime_expiry strptime_trade eq_refl).
Defined.
